(** * libmicrohttpd: the secure connection layer and the public response API

    A shallow embedding of [src/daemon/connection_https.c] (the TLS
    variants of the per-connection read, write and idle handlers, the
    record-layer transport and the callback installer) and of the
    contracts of the content reader, [MHD_queue_response] and
    [MHD_create_response_from_data], which [microhttpd.h] declares.

    Further parts embed the opaque PRF input extension of the TLS layer
    ([ext_oprfi.c]), the file-name helper of the literal packet filter
    ([literal.c]) and the verification of X.509 certificate chains
    ([verify.c]); what these take from files that are not at hand is a
    parameter of the embedding.

    Conventions.
    - C integers are [Z].  [time_t] is the 64-bit signed type of an LP64
      platform, with its two's complement wrap-around written out in
      [time_t_wrap]; [unsigned int] values are taken in [0, 2^32).
    - A C function that mutates the connection and calls the operating
      system or GnuTLS is a computation in the monad [M]: it threads the
      connection and appends every external call to a trace of [event]s.
    - Diagnostic messages ([MHD_DLOG], compiled in under [HAVE_MESSAGES])
      are not events of the trace: a message whose arguments fit its
      format changes neither the connection nor the result.  The one
      message on a reachable path whose argument does not fit its format
      (an [int] printed through [%s]) is undefined behaviour when it is
      printed, and the handler ends in [Undefined] there.
    - The termination notifier is handed [&connection->client_context]:
      a [notifier] says what it leaves there.
    - [size_t] and [ssize_t] are the 64-bit types of an LP64 platform;
      the conversion from the first to the second is [ssize_t_of_size_t].
    - What an external call answers (the clock, the peeked record type,
      the alert found by GnuTLS, the result of the handshake) is read from
      an [Env] record, so every handler is a total, executable function. *)

From Stdlib Require Import ZArith Lia Bool.
From stdpp Require Import base option list gmap.

Local Open Scope Z_scope.

(** ** Constants of [microhttpd.h] *)

Definition MHD_YES : Z := 1.
Definition MHD_NO : Z := 0.

Definition MHD_USE_DEBUG : Z := 1.
Definition MHD_USE_SSL : Z := 2.
Definition MHD_USE_THREAD_PER_CONNECTION : Z := 4.
Definition MHD_USE_SELECT_INTERNALLY : Z := 8.
Definition MHD_USE_IPv4 : Z := 16.
Definition MHD_USE_IPv6 : Z := 32.

(** ** Constants of the TLS record layer ([gnutls_int.h]) *)

Definition GNUTLS_CHANGE_CIPHER_SPEC : Z := 20.
Definition GNUTLS_ALERT : Z := 21.
Definition GNUTLS_HANDSHAKE : Z := 22.
Definition GNUTLS_APPLICATION_DATA : Z := 23.
Definition GNUTLS_INNER_APPLICATION : Z := 24.

(** The alert description and the alert level that the read handler
    compares [last_alert] with.  Their declarations ([gnutls.h]) are not
    among the sources; these are the values of the TLS protocol. *)
Definition GNUTLS_A_CLOSE_NOTIFY : Z := 0.
Definition GNUTLS_AL_FATAL : Z := 2.

Inductive valid_session_t := VALID_TRUE | VALID_FALSE.
Inductive resumable_session_t := RESUME_TRUE | RESUME_FALSE.

(** ** Enumerations of the connection *)

(** The HTTP state of a connection.  The handlers of this file name two of
    its values; every other value of the enumeration is [MHD_CONNECTION_OTHER]. *)
Inductive MHD_CONNECTION_STATE :=
| MHD_CONNECTION_INIT
| MHD_CONNECTION_CLOSED
| MHD_CONNECTION_OTHER (n : Z).

(** The secure sub-state.  The handlers name four values; a value that
    reaches the [default] clause of a [switch] is [MHDS_STATE_OTHER]. *)
Inductive MHDS_CONNECTION_STATE :=
| MHDS_CONNECTION_INIT
| MHDS_HANDSHAKE_FAILED
| MHDS_HANDSHAKE_COMPLETE
| MHDS_CONNECTION_CLOSED
| MHDS_STATE_OTHER (n : Z).

(** The termination codes handed to the per-request notifier. *)
Inductive MHD_RequestTerminationCode :=
| MHD_REQUEST_TERMINATED_COMPLETED_OK
| MHD_REQUEST_TERMINATED_WITH_ERROR
| MHD_REQUEST_TERMINATED_TIMEOUT_REACHED
| MHD_REQUEST_TERMINATED_DAEMON_SHUTDOWN.

(** A function pointer stored in a connection: the address of one of the
    functions this file defines or declares, or no function. *)
Inductive fnptr :=
| fn_NULL
| fn_MHDS_con_read
| fn_MHDS_con_write
| fn_MHDS_connection_handle_read
| fn_MHDS_connection_handle_write
| fn_MHDS_connection_handle_idle
| fn_MHD_connection_handle_read
| fn_MHD_connection_handle_write
| fn_MHD_connection_handle_idle.

#[global] Instance MHD_CONNECTION_STATE_eq_dec : EqDecision MHD_CONNECTION_STATE.
Proof. solve_decision. Defined.
#[global] Instance MHDS_CONNECTION_STATE_eq_dec : EqDecision MHDS_CONNECTION_STATE.
Proof. solve_decision. Defined.
#[global] Instance MHD_RequestTerminationCode_eq_dec : EqDecision MHD_RequestTerminationCode.
Proof. solve_decision. Defined.
#[global] Instance fnptr_eq_dec : EqDecision fnptr.
Proof. solve_decision. Defined.

(** ** Records *)

(** A termination notifier, as far as the library can see what it does:
    called with [&connection->client_context] and the termination code,
    it answers the value that it leaves in [client_context].  The
    callback is also handed the connection itself; it is taken to write
    to the connection through the address of [client_context] only. *)
Definition notifier : Type := Z -> MHD_RequestTerminationCode -> Z.

(** The fields of [struct MHD_Daemon] that the handlers read, and the
    build of the library that runs the daemon. *)
Record MHD_Daemon := mkDaemon {
  options : Z;
  connection_timeout : Z;
  (** the callback; [None] is [NULL] *)
  notify_completed : option notifier;
  (** whether the library was compiled with [HAVE_MESSAGES] *)
  have_messages : bool
}.

(** Modelled from the spec: [MHD_DLOG] is defined in a file that is
    missing from the sources.  "USE_DEBUG: enable diagnostic logging to
    stderr"; "internal errors are logged under debug mode only".
    Whether a call [MHD_DLOG (daemon, format, ...)] formats and prints
    its arguments: the call is compiled in and the daemon was started
    with [MHD_USE_DEBUG]. *)
Definition MHD_DLOG_prints (d : MHD_Daemon) : bool :=
  have_messages d && negb (Z.land (options d) MHD_USE_DEBUG =? 0).
Arguments MHD_DLOG_prints : simpl never.

(** [tls_session->internals], the fields the read handler touches. *)
Record gnutls_internals := mkInternals {
  last_alert : Z;
  read_eof : Z;
  resumable : resumable_session_t;
  valid_connection : valid_session_t
}.

Record MHD_Connection := mkConnection {
  daemon : MHD_Daemon;
  socket_fd : Z;
  state : MHD_CONNECTION_STATE;
  s_state : MHDS_CONNECTION_STATE;
  last_activity : Z;
  read_buffer : list Z;
  read_buffer_offset : Z;
  read_buffer_size : Z;
  write_buffer : list Z;
  write_buffer_send_offset : Z;
  write_buffer_append_offset : Z;
  recv_cls : fnptr;
  send_cls : fnptr;
  read_handler : fnptr;
  write_handler : fnptr;
  idle_handler : fnptr;
  tls_session : gnutls_internals;
  client_context : Z
}.

(** Field assignments, one per field the code writes. *)
Definition set_socket_fd (v : Z) (c : MHD_Connection) : MHD_Connection :=
  mkConnection (daemon c) v (state c) (s_state c) (last_activity c)
    (read_buffer c) (read_buffer_offset c) (read_buffer_size c)
    (write_buffer c) (write_buffer_send_offset c) (write_buffer_append_offset c)
    (recv_cls c) (send_cls c) (read_handler c) (write_handler c) (idle_handler c)
    (tls_session c) (client_context c).

Definition set_state (v : MHD_CONNECTION_STATE) (c : MHD_Connection) : MHD_Connection :=
  mkConnection (daemon c) (socket_fd c) v (s_state c) (last_activity c)
    (read_buffer c) (read_buffer_offset c) (read_buffer_size c)
    (write_buffer c) (write_buffer_send_offset c) (write_buffer_append_offset c)
    (recv_cls c) (send_cls c) (read_handler c) (write_handler c) (idle_handler c)
    (tls_session c) (client_context c).

Definition set_s_state (v : MHDS_CONNECTION_STATE) (c : MHD_Connection) : MHD_Connection :=
  mkConnection (daemon c) (socket_fd c) (state c) v (last_activity c)
    (read_buffer c) (read_buffer_offset c) (read_buffer_size c)
    (write_buffer c) (write_buffer_send_offset c) (write_buffer_append_offset c)
    (recv_cls c) (send_cls c) (read_handler c) (write_handler c) (idle_handler c)
    (tls_session c) (client_context c).

Definition set_last_activity (v : Z) (c : MHD_Connection) : MHD_Connection :=
  mkConnection (daemon c) (socket_fd c) (state c) (s_state c) v
    (read_buffer c) (read_buffer_offset c) (read_buffer_size c)
    (write_buffer c) (write_buffer_send_offset c) (write_buffer_append_offset c)
    (recv_cls c) (send_cls c) (read_handler c) (write_handler c) (idle_handler c)
    (tls_session c) (client_context c).

Definition set_read_buffer (v : list Z) (c : MHD_Connection) : MHD_Connection :=
  mkConnection (daemon c) (socket_fd c) (state c) (s_state c) (last_activity c)
    v (read_buffer_offset c) (read_buffer_size c)
    (write_buffer c) (write_buffer_send_offset c) (write_buffer_append_offset c)
    (recv_cls c) (send_cls c) (read_handler c) (write_handler c) (idle_handler c)
    (tls_session c) (client_context c).

Definition set_tls_session (v : gnutls_internals) (c : MHD_Connection) : MHD_Connection :=
  mkConnection (daemon c) (socket_fd c) (state c) (s_state c) (last_activity c)
    (read_buffer c) (read_buffer_offset c) (read_buffer_size c)
    (write_buffer c) (write_buffer_send_offset c) (write_buffer_append_offset c)
    (recv_cls c) (send_cls c) (read_handler c) (write_handler c) (idle_handler c)
    v (client_context c).

Definition set_callbacks (rc sc rh wh ih : fnptr) (c : MHD_Connection) : MHD_Connection :=
  mkConnection (daemon c) (socket_fd c) (state c) (s_state c) (last_activity c)
    (read_buffer c) (read_buffer_offset c) (read_buffer_size c)
    (write_buffer c) (write_buffer_send_offset c) (write_buffer_append_offset c)
    rc sc rh wh ih
    (tls_session c) (client_context c).

Definition set_client_context (v : Z) (c : MHD_Connection) : MHD_Connection :=
  mkConnection (daemon c) (socket_fd c) (state c) (s_state c) (last_activity c)
    (read_buffer c) (read_buffer_offset c) (read_buffer_size c)
    (write_buffer c) (write_buffer_send_offset c) (write_buffer_append_offset c)
    (recv_cls c) (send_cls c) (read_handler c) (write_handler c) (idle_handler c)
    (tls_session c) v.

Definition set_last_alert (v : Z) (i : gnutls_internals) : gnutls_internals :=
  mkInternals v (read_eof i) (resumable i) (valid_connection i).
Definition set_read_eof (v : Z) (i : gnutls_internals) : gnutls_internals :=
  mkInternals (last_alert i) v (resumable i) (valid_connection i).
Definition set_resumable (v : resumable_session_t) (i : gnutls_internals) : gnutls_internals :=
  mkInternals (last_alert i) (read_eof i) v (valid_connection i).
Definition set_valid_connection (v : valid_session_t) (i : gnutls_internals) : gnutls_internals :=
  mkInternals (last_alert i) (read_eof i) (resumable i) v.

(** ** External calls *)

(** Every call that leaves the file, diagnostic messages apart, in the
    order the handler makes it. *)
Inductive event :=
| EvShutdown (fd : Z)                       (* SHUTDOWN (fd, SHUT_RDWR) *)
| EvClose (fd : Z)                          (* CLOSE (fd) *)
| EvNotify (code : MHD_RequestTerminationCode) (* daemon->notify_completed (...) *)
| EvPeek (fd : Z)                           (* recv (fd, &msg_type, 1, MSG_PEEK) *)
| EvRecvInt                                 (* _gnutls_recv_int (.., GNUTLS_ALERT, .., 0) *)
| EvBye                                     (* gnutls_bye (.., GNUTLS_SHUT_WR) *)
| EvDeinit                                  (* gnutls_deinit (..) *)
| EvHandshake.                              (* gnutls_handshake (..) *)

#[global] Instance event_eq_dec : EqDecision event.
Proof. solve_decision. Defined.

(** What the outside world answers during one handler call. *)
Record Env := mkEnv {
  (** [time (NULL)] *)
  env_now : Z;
  (** the peek at the record type: [None] when [recv] returned -1,
      otherwise the value found in [msg_type] after the call *)
  env_peek : option Z;
  (** [internals.last_alert] as [_gnutls_recv_int] leaves it *)
  env_alert : Z;
  (** the value [gnutls_handshake] returns *)
  env_handshake : Z
}.

(** ** The monad of handler bodies *)

Record World := mkWorld {
  w_conn : MHD_Connection;
  w_trace : list event
}.

Definition M (A : Type) : Type := World -> A * World.

Definition ret {A} (a : A) : M A := fun w => (a, w).
Definition bind {A B} (m : M A) (k : A -> M B) : M B :=
  fun w => let '(a, w') := m w in k a w'.

Declare Scope mhd_scope.
Delimit Scope mhd_scope with mhd.
Notation "'let*' x := m 'in' k" := (bind m (fun x => k))
  (at level 10, x name, m at level 100, k at level 200) : mhd_scope.
Notation "m >> k" := (bind m (fun _ => k))
  (at level 100, k at level 200, right associativity) : mhd_scope.

(** read the connection *)
Definition conn : M MHD_Connection := fun w => (w_conn w, w).
(** assign to the connection *)
Definition modify (f : MHD_Connection -> MHD_Connection) : M unit :=
  fun w => (tt, mkWorld (f (w_conn w)) (w_trace w)).
(** make an external call *)
Definition call (e : event) : M unit :=
  fun w => (tt, mkWorld (w_conn w) (w_trace w ++ [e])).

Definition run {A} (m : M A) (c : MHD_Connection) : A * World :=
  m (mkWorld c []).

(** ** [connection_close_error] *)

(** [daemon->notify_completed (.., connection, &connection->client_context,
    code)]: the call, and what the callback leaves in [client_context]. *)
Definition notify (f : notifier) (code : MHD_RequestTerminationCode) : M unit :=
  (call (EvNotify code) >>
   modify (fun c => set_client_context (f (client_context c) code) c))%mhd.

Definition connection_close_error : M unit :=
  (let* c := conn in
   call (EvShutdown (socket_fd c)) >>
   call (EvClose (socket_fd c)) >>
   modify (set_socket_fd (-1)) >>
   modify (set_state MHD_CONNECTION_CLOSED) >>
   match notify_completed (daemon c) with
   | Some f => notify f MHD_REQUEST_TERMINATED_WITH_ERROR
   | None => ret tt
   end)%mhd.

(** ** [MHDS_connection_handle_idle] *)

(** The result of a [time_t] subtraction in two's complement. *)
Definition time_t_wrap (z : Z) : Z := (z + 2 ^ 63) mod 2 ^ 64 - 2 ^ 63.

(** [time (NULL) - timeout > connection->last_activity] *)
Definition idle_expired (now timeout last : Z) : bool :=
  time_t_wrap (now - timeout) >? last.

(** [if (connection->socket_fd != -1) connection_close_error (connection);] *)
Definition close_if_open : M unit :=
  (let* c := conn in
   if negb (socket_fd c =? -1) then connection_close_error else ret tt)%mhd.

(** The [switch] on the secure sub-state, with its fall-through:
    [MHDS_HANDSHAKE_FAILED] forgets the descriptor first, then the four
    named cases share the body of [MHDS_CONNECTION_CLOSED]. *)
Definition idle_switch : M unit :=
  (let* c := conn in
   match s_state c with
   | MHDS_HANDSHAKE_FAILED => modify (set_socket_fd (-1)) >> close_if_open
   | MHDS_CONNECTION_INIT
   | MHDS_HANDSHAKE_COMPLETE
   | MHDS_CONNECTION_CLOSED => close_if_open
   | MHDS_STATE_OTHER _ => ret tt
   end)%mhd.

Definition MHDS_connection_handle_idle (e : Env) : M Z :=
  (idle_switch >>
   let* c := conn in
   let timeout := connection_timeout (daemon c) in
   if negb (socket_fd c =? -1) && negb (timeout =? 0)
      && idle_expired (env_now e) timeout (last_activity c)
   then connection_close_error >> ret MHD_NO
   else ret MHD_YES)%mhd.

(** ** [MHDS_connection_handle_read] *)

(** How a handler ends: it returns a value, it returns whatever another
    handler returns ([return f (connection);], a function declared but
    not defined in this file), it never leaves its loop, or it runs into
    undefined behaviour. *)
Inductive handler_result :=
| Return (r : Z)
| TailCall (f : fnptr)
| Diverges
| Undefined.

#[global] Instance handler_result_eq_dec : EqDecision handler_result.
Proof. solve_decision. Defined.

(** assignments to [connection->tls_session->internals] *)
Definition modify_tls (f : gnutls_internals -> gnutls_internals) : M unit :=
  modify (fun c => set_tls_session (f (tls_session c)) c).

(** The [GNUTLS_ALERT] case. *)
Definition read_alert (e : Env) : M handler_result :=
  (call EvRecvInt >>
   modify_tls (set_last_alert (env_alert e)) >>
   let* c := conn in
   let alert := last_alert (tls_session c) in
   if alert =? GNUTLS_A_CLOSE_NOTIFY then
     call EvBye >>
     modify_tls (set_read_eof 1) >>
     modify (set_socket_fd (-1)) >>
     call EvDeinit >>
     ret (Return MHD_YES)
   else if negb (alert =? GNUTLS_AL_FATAL) then
     ret (Return MHD_YES)
   else if alert =? GNUTLS_AL_FATAL then
     modify_tls (set_resumable RESUME_FALSE) >>
     modify_tls (set_valid_connection VALID_FALSE) >>
     modify (set_socket_fd (-1)) >>
     call EvDeinit >>
     ret (Return MHD_NO)
   else
     ret (Return MHD_NO))%mhd.

(** The [GNUTLS_HANDSHAKE] case. *)
Definition read_handshake (e : Env) : M handler_result :=
  (call EvHandshake >>
   if env_handshake e =? 0 then
     modify (set_s_state MHDS_HANDSHAKE_COMPLETE) >>
     modify (set_state MHD_CONNECTION_INIT) >>
     ret (Return MHD_YES)
   else
     let* c := conn in
     (* MHD_DLOG (.., "Error: Handshake has failed (%s)\n", ret), with
        [int ret]: when the message is printed an integer is read as a
        string *)
     if MHD_DLOG_prints (daemon c) then ret Undefined
     else
       modify (set_s_state MHDS_HANDSHAKE_FAILED) >>
       call EvBye >>
       call EvDeinit >>
       modify (set_socket_fd (-1)) >>
       ret (Return MHD_NO))%mhd.

Definition MHDS_connection_handle_read (e : Env) : M handler_result :=
  (modify (set_last_activity (env_now e)) >>
   let* c := conn in
   if decide (s_state c = MHDS_CONNECTION_CLOSED) then ret (Return MHD_NO)
   else
     call (EvPeek (socket_fd c)) >>
     match env_peek e with
     | None => ret (Return MHD_NO)
     | Some msg_type =>
         if msg_type =? GNUTLS_CHANGE_CIPHER_SPEC then ret (Return MHD_YES)
         else if msg_type =? GNUTLS_ALERT then read_alert e
         else if msg_type =? GNUTLS_APPLICATION_DATA then
           ret (TailCall fn_MHD_connection_handle_read)
         else if msg_type =? GNUTLS_HANDSHAKE then read_handshake e
         else (* GNUTLS_INNER_APPLICATION, or no case of the switch *)
           ret (Return MHD_YES)
     end)%mhd.

(** ** [MHDS_connection_handle_write] *)

(** The [switch] has no [default]: in a sub-state other than the four
    named ones the [while (1)] around it never ends. *)
Definition MHDS_connection_handle_write (e : Env) : M handler_result :=
  (modify (set_last_activity (env_now e)) >>
   let* c := conn in
   match s_state c with
   | MHDS_HANDSHAKE_COMPLETE
   | MHDS_CONNECTION_INIT
   | MHDS_HANDSHAKE_FAILED
   | MHDS_CONNECTION_CLOSED => close_if_open >> ret (Return MHD_NO)
   | MHDS_STATE_OTHER _ => ret Diverges
   end)%mhd.

(** ** The record-layer transport: [MHDS_con_read], [MHDS_con_write] *)

(** What [gnutls_record_recv] answers when asked for at most [n] bytes:
    the bytes it copied to the destination, or a negative error code. *)
Inductive recv_result :=
| RecvBytes (data : list Z)
| RecvError (code : Z).

Definition record_layer : Type := Z -> recv_result.

(** The contract of the record layer: never more bytes than asked for. *)
Definition record_layer_ok (L : record_layer) : Prop :=
  forall n data, 0 <= n -> L n = RecvBytes data -> Z.of_nat (length data) <= n.

(** A record layer holding [pending] decrypted bytes. *)
Definition pending_layer (pending : list Z) : record_layer :=
  fun n => RecvBytes (take (Z.to_nat n) pending).

(** Copying [data] to [&buf[off]].  [None] is a write that leaves the
    buffer: undefined behaviour in C. *)
Definition store_bytes (buf : list Z) (off : Z) (data : list Z) : option (list Z) :=
  if (0 <=? off) && (off + Z.of_nat (length data) <=? Z.of_nat (length buf))
  then Some (take (Z.to_nat off) buf ++ data
             ++ drop (Z.to_nat off + length data)%nat buf)
  else None.

(** The destination offset and the [sizeofdata] argument that
    [MHDS_con_read] hands to [gnutls_record_recv]. *)
Definition MHDS_con_read_request (c : MHD_Connection) : Z * Z :=
  (read_buffer_offset c, read_buffer_size c).

(** The source offset and the length that [MHDS_con_write] hands to
    [gnutls_record_send]. *)
Definition MHDS_con_write_request (c : MHD_Connection) : Z * Z :=
  (write_buffer_send_offset c,
   write_buffer_append_offset c - write_buffer_send_offset c).

(** [MHDS_con_read]: the returned size and the connection afterwards
    ([None] when the copy left the read buffer). *)
Definition MHDS_con_read (L : record_layer) (c : MHD_Connection)
  : Z * option MHD_Connection :=
  let '(off, sizeofdata) := MHDS_con_read_request c in
  match L sizeofdata with
  | RecvBytes data =>
      (Z.of_nat (length data),
       (fun b => set_read_buffer b c) <$> store_bytes (read_buffer c) off data)
  | RecvError code => (code, Some c)
  end.

(** ** [MHD_set_https_calbacks] *)

Definition MHD_set_https_calbacks (c : MHD_Connection) : MHD_Connection :=
  set_callbacks
    fn_MHDS_con_read                  (* recv_cls *)
    fn_MHDS_con_write                 (* send_cls *)
    fn_MHDS_connection_handle_read    (* read_handler *)
    fn_MHD_connection_handle_write    (* write_handler *)
    fn_MHD_connection_handle_idle     (* idle_handler *)
    c.

(** * The public API of [microhttpd.h]

    The header declares the entry points below and documents their
    contracts; the functions that implement them are not part of the
    sources at hand. *)

(** ** Operating modes *)

Inductive operating_mode :=
| ExternalMode           (* the host calls MHD_get_fdset, then MHD_run *)
| InternalSelect         (* MHD_USE_SELECT_INTERNALLY *)
| ThreadPerConnection.   (* MHD_USE_THREAD_PER_CONNECTION *)

#[global] Instance operating_mode_eq_dec : EqDecision operating_mode.
Proof. solve_decision. Defined.

Definition has_option (opts flag : Z) : bool := negb (Z.land opts flag =? 0).

(** The mode the option flags of [enum MHD_OPTION] select: "if neither
    MHD_USE_THREAD_PER_CONNECTION nor MHD_USE_SELECT_INTERNALLY are used,
    the client wants control over the process".  The two flags exclude
    each other. *)
Definition operating_mode_of (opts : Z) : option operating_mode :=
  match has_option opts MHD_USE_THREAD_PER_CONNECTION,
        has_option opts MHD_USE_SELECT_INTERNALLY with
  | false, false => Some ExternalMode
  | false, true => Some InternalSelect
  | true, false => Some ThreadPerConnection
  | true, true => None
  end.

(** ** The content reader returning 0 *)

Inductive zero_reaction :=
| AbortProcess
| RetryImmediately
| RetryNextRound.

#[global] Instance zero_reaction_eq_dec : EqDecision zero_reaction.
Proof. solve_decision. Defined.

Definition is_retry (r : zero_reaction) : bool :=
  match r with
  | AbortProcess => false
  | RetryImmediately | RetryNextRound => true
  end.

(** Modelled from the spec: the function that calls the content reader
    is missing from the sources.  Section 5 of the specification:
    "returning 0 in external mode is a fatal usage error (the loop would
    busy-wait) and MUST abort the process"; in the other modes a 0
    return makes the library try the reader again, at once in a
    connection's own thread and in the next round of the select loop.
    (The comment at the declaration of [MHD_ContentReaderCallback] in
    the header words the modes differently; no code in the sources
    decides between the two.) *)
Definition reader_returned_zero (m : operating_mode) : zero_reaction :=
  match m with
  | ExternalMode => AbortProcess
  | InternalSelect => RetryNextRound
  | ThreadPerConnection => RetryImmediately
  end.

(** ** Streaming a callback response *)

(** What one call of the content reader produces: its return value, the
    bytes it placed in [buf], and its own closure ([cls]) afterwards. *)
Record reader_result (S : Type) := mkReaderResult {
  rr_ret : Z;
  rr_data : list Z;
  rr_cls : S
}.
Arguments mkReaderResult {S} _ _ _.
Arguments rr_ret {S} _.
Arguments rr_data {S} _.
Arguments rr_cls {S} _.

Inductive stream_status :=
| Streaming          (* more calls may follow *)
| StreamError        (* the reader returned -1: the connection is closed *)
| StreamAborted      (* a 0 return in a mode that forbids it *)
| StreamViolation.   (* a return value outside the contract *)

#[global] Instance stream_status_eq_dec : EqDecision stream_status.
Proof. solve_decision. Defined.

(** One queuing of a callback response on one connection. *)
Record stream (S : Type) := mkStream {
  st_pos : Z;                  (* position handed to the next call *)
  st_out : list Z;             (* bytes appended to the write buffer *)
  st_cls : S;                  (* the closure of the reader *)
  st_calls : list (Z * Z);     (* every call so far: (pos passed, value returned) *)
  st_status : stream_status
}.
Arguments mkStream {S} _ _ _ _ _.
Arguments st_pos {S} _.
Arguments st_out {S} _.
Arguments st_cls {S} _.
Arguments st_calls {S} _.
Arguments st_status {S} _.

Section ContentReader.
Context {S : Type}.
(** [reader cls pos max] *)
Variable reader : S -> Z -> Z -> reader_result S.
Variable mode : operating_mode.

(** Modelled from the spec: the state a connection is in when a
    callback response has just been queued on it (the function that
    queues and streams responses is missing from the sources); the
    position starts at 0 for each queuing. *)
Definition stream_start (cls : S) : stream S :=
  mkStream 0 [] cls [] Streaming.

(** Modelled from the spec: one invocation of the content reader with
    room for [max] bytes (the streaming loop is missing from the
    sources).  "Returning -1 ends the stream with error; any positive
    value <= max is appended to the write buffer"; a 0 return is
    answered as [reader_returned_zero] says; the position advances by
    what was appended. *)
Definition stream_step (max : Z) (s : stream S) : stream S :=
  match st_status s with
  | Streaming =>
      let r := reader (st_cls s) (st_pos s) max in
      let n := rr_ret r in
      let calls := st_calls s ++ [(st_pos s, n)] in
      if n =? -1 then
        mkStream (st_pos s) (st_out s) (rr_cls r) calls StreamError
      else if n =? 0 then
        mkStream (st_pos s) (st_out s) (rr_cls r) calls
          (if is_retry (reader_returned_zero mode) then Streaming else StreamAborted)
      else if (0 <? n) && (n <=? max) then
        mkStream (st_pos s + n) (st_out s ++ take (Z.to_nat n) (rr_data r))
          (rr_cls r) calls Streaming
      else
        mkStream (st_pos s) (st_out s) (rr_cls r) calls StreamViolation
  | _ => s
  end.

(** The reader is invoked once for each entry of [maxs], the room in
    the write buffer at that moment, until the stream ends. *)
Definition stream_run (maxs : list Z) (s : stream S) : stream S :=
  foldl (fun s max => stream_step max s) s maxs.
End ContentReader.

(** The sum of the nonnegative values among the returns of [calls]. *)
Definition sum_nonneg (calls : list (Z * Z)) : Z :=
  foldr (fun c acc => Z.max 0 (snd c) + acc) 0 calls.

(** Every call so far was handed the sum of the nonnegative returns
    before it. *)
Definition calls_consistent (calls : list (Z * Z)) : Prop :=
  forall pre p r post, calls = pre ++ (p, r) :: post -> p = sum_nonneg pre.

(** The invariant of a stream: the calls made so far are consistent, and
    while the stream goes on its position is the sum of the nonnegative
    returns. *)
Definition stream_inv {S : Type} (s : stream S) : Prop :=
  calls_consistent (st_calls s)
  /\ (st_status s = Streaming -> st_pos s = sum_nonneg (st_calls s)).

(** ** [MHD_queue_response] *)

(** The session as the handler sees it: the response pointer (nullable)
    and the status code recorded when a response is queued. *)
Record MHD_Session := mkSession {
  response : option Z;
  responseCode : Z
}.

(** Modelled from the spec: [MHD_queue_response] is declared in the header
    and defined in a file that is missing from the sources.
    "queue_response(session, status, response) -> OK|ERR (fails if a
    response is already queued)"; the header: "MHD_NO on error (i.e.
    reply already sent), MHD_YES on success or if message has been
    queued". *)
Definition MHD_queue_response (session : MHD_Session) (status_code : Z)
    (resp : Z) : Z * MHD_Session :=
  match response session with
  | Some _ => (MHD_NO, session)
  | None => (MHD_YES, mkSession (Some resp) status_code)
  end.

(** A handler calling [MHD_queue_response] once for each [(status,
    response)] of [calls], in order; the values returned and the session
    at the end. *)
Fixpoint queue_all (session : MHD_Session) (calls : list (Z * Z))
  : list Z * MHD_Session :=
  match calls with
  | [] => ([], session)
  | (status_code, resp) :: rest =>
      let '(r, session') := MHD_queue_response session status_code resp in
      let '(rs, session'') := queue_all session' rest in
      (r :: rs, session'')
  end.

(** The number of calls that reported success. *)
Definition successes (rs : list Z) : nat :=
  length (filter (fun r => r = MHD_YES) rs).

(** ** [MHD_create_response_from_data] *)

(** The memory of the host process: the bytes at the mapped addresses.
    Freeing a block unmaps its addresses. *)
Abbreviation memory := (gmap Z Z).

(** The [n] bytes at [addr]; [None] when one of them is not mapped. *)
Fixpoint read_mem (h : memory) (addr : Z) (n : nat) : option (list Z) :=
  match n with
  | O => Some []
  | S n' =>
      match h !! addr, read_mem h (addr + 1) n' with
      | Some b, Some bs => Some (b :: bs)
      | _, _ => None
      end
  end.

Inductive body_source :=
| OwnedCopy (bytes : list Z)   (* a copy made when the response was created *)
| Borrowed (addr : Z).         (* the caller's buffer, read when transmitting *)

Record MHD_Response := mkResponse {
  total_size : Z;
  data : body_source;
  must_free_data : bool
}.

(** Modelled from the spec: [MHD_create_response_from_data] is declared in
    the header and defined in a file that is missing from the sources.
    "from_buffer(size, data, must_free, must_copy)": with [must_copy] the
    library "must make a copy of data right away, the data maybe released
    anytime after this call returns"; otherwise it keeps the caller's
    pointer, and frees it on destruction when [must_free] is set.  [None]
    is the [NULL] of an invalid argument (a buffer that is not mapped). *)
Definition MHD_create_response_from_data (h : memory) (size : Z) (addr : Z)
    (must_free must_copy : bool) : option MHD_Response :=
  if must_copy then
    bytes ← read_mem h addr (Z.to_nat size);
    Some (mkResponse size (OwnedCopy bytes) true)
  else
    Some (mkResponse size (Borrowed addr) must_free).

(** Modelled from the spec: the bytes of the body that the server puts on
    the wire for a buffer response, given the memory at the time of the
    transmission (the sending loop is missing from the sources).  [None]
    is a read of unmapped memory. *)
Definition transmitted_body (h : memory) (r : MHD_Response) : option (list Z) :=
  match data r with
  | OwnedCopy bytes => Some bytes
  | Borrowed addr => read_mem h addr (Z.to_nat (total_size r))
  end.

(** ** [MHDS_con_write], with the buffer it reads *)

(** What [gnutls_record_send] answers when offered [data]: the number
    of bytes it took, or a negative error code. *)
Definition send_layer : Type := list Z -> Z.

(** Reading [len] bytes at [&buf[off]].  [None] is a read that leaves
    the buffer (a negative [len] becomes a huge [size_t]). *)
Definition load_bytes (buf : list Z) (off len : Z) : option (list Z) :=
  if (0 <=? off) && (0 <=? len) && (off + len <=? Z.of_nat (length buf))
  then Some (take (Z.to_nat len) (drop (Z.to_nat off) buf))
  else None.

(** [MHDS_con_write]: the value [gnutls_record_send] returns for the
    bytes between the two write offsets. *)
Definition MHDS_con_write (L : send_layer) (c : MHD_Connection) : option Z :=
  let '(off, len) := MHDS_con_write_request c in
  L <$> load_bytes (write_buffer c) off len.

(** The calls that go to GnuTLS or peek at the socket, as opposed to
    those that dispose of the descriptor or tell the notifier. *)
Definition is_tls_call (ev : event) : bool :=
  match ev with
  | EvPeek _ | EvRecvInt | EvBye | EvDeinit | EvHandshake => true
  | EvShutdown _ | EvClose _ | EvNotify _ => false
  end.

(** The calls [connection_close_error] makes on a connection. *)
Definition close_error_calls (c : MHD_Connection) : list event :=
  [EvShutdown (socket_fd c); EvClose (socket_fd c)]
  ++ match notify_completed (daemon c) with
     | Some _ => [EvNotify MHD_REQUEST_TERMINATED_WITH_ERROR]
     | None => []
     end.

(** What a registered notifier leaves in [client_context] when it is
    told that the request ended with an error; the field as it was when
    none is registered. *)
Definition context_after_close (c : MHD_Connection) : Z :=
  match notify_completed (daemon c) with
  | Some f => f (client_context c) MHD_REQUEST_TERMINATED_WITH_ERROR
  | None => client_context c
  end.

(** The connection [connection_close_error] leaves behind. *)
Definition closed_by_error (c : MHD_Connection) : MHD_Connection :=
  set_client_context (context_after_close c)
    (set_state MHD_CONNECTION_CLOSED (set_socket_fd (-1) c)).

(** The five callbacks of a connection. *)
Definition callbacks (c : MHD_Connection) : list fnptr :=
  [recv_cls c; send_cls c; read_handler c; write_handler c; idle_handler c].

(** The fields that neither a handler of the secure layer nor a
    termination notifier writes. *)
Definition untouched_by_close (c c' : MHD_Connection) : Prop :=
  daemon c' = daemon c
  /\ read_buffer c' = read_buffer c
  /\ read_buffer_offset c' = read_buffer_offset c
  /\ read_buffer_size c' = read_buffer_size c
  /\ write_buffer c' = write_buffer c
  /\ write_buffer_send_offset c' = write_buffer_send_offset c
  /\ write_buffer_append_offset c' = write_buffer_append_offset c
  /\ callbacks c' = callbacks c.

(** The fields the read handler, which never calls the notifier, leaves
    as they are. *)
Definition untouched (c c' : MHD_Connection) : Prop :=
  daemon c' = daemon c
  /\ read_buffer c' = read_buffer c
  /\ read_buffer_offset c' = read_buffer_offset c
  /\ read_buffer_size c' = read_buffer_size c
  /\ write_buffer c' = write_buffer c
  /\ write_buffer_send_offset c' = write_buffer_send_offset c
  /\ write_buffer_append_offset c' = write_buffer_append_offset c
  /\ callbacks c' = callbacks c
  /\ client_context c' = client_context c.

(** * The opaque PRF input extension ([ext_oprfi.c])

    The server and client halves of the extension, with the fields of
    [mhd_gtls_ext_st] they use ([gnutls_int.h]) and the [DECR_LEN] macros
    of the same header. *)

(** Error codes of GnuTLS that the extension returns.  Their declarations
    ([gnutls.h]) are not among the sources; these are the values of the
    GnuTLS library. *)
Definition GNUTLS_E_UNEXPECTED_PACKET_LENGTH : Z := -9.
Definition GNUTLS_E_MEMORY_ERROR : Z := -25.
Definition GNUTLS_E_SHORT_MEMORY_BUFFER : Z := -51.
Definition GNUTLS_E_RECEIVED_ILLEGAL_PARAMETER : Z := -55.

Inductive gnutls_connection_end_t := GNUTLS_SERVER | GNUTLS_CLIENT.

#[global] Instance gnutls_connection_end_t_eq_dec : EqDecision gnutls_connection_end_t.
Proof. solve_decision. Defined.

(** An [opaque *] field: [NULL], a block obtained from [MHD_gnutls_malloc]
    with its contents, or a pointer to a block that has been freed. *)
Inductive opaque_ptr :=
| NullPtr
| Block (bytes : list Z)
| FreedPtr.

(** [gnutls_oprfi_callback_func], as a function of the client's input
    (length and bytes); it answers its return value and the bytes that
    the output block holds after the call. *)
Definition oprfi_callback : Type := Z -> list Z -> Z * list Z.

Record oprfi_session := mkOprfi {
  entity : gnutls_connection_end_t;
  oprfi_cb : option oprfi_callback;
  oprfi_client : opaque_ptr;
  oprfi_client_len : Z;
  oprfi_server : opaque_ptr;
  oprfi_server_len : Z
}.

Definition set_oprfi_client (p : opaque_ptr) (s : oprfi_session) : oprfi_session :=
  mkOprfi (entity s) (oprfi_cb s) p (oprfi_client_len s)
    (oprfi_server s) (oprfi_server_len s).
Definition set_oprfi_client_len (n : Z) (s : oprfi_session) : oprfi_session :=
  mkOprfi (entity s) (oprfi_cb s) (oprfi_client s) n
    (oprfi_server s) (oprfi_server_len s).
Definition set_oprfi_server (p : opaque_ptr) (s : oprfi_session) : oprfi_session :=
  mkOprfi (entity s) (oprfi_cb s) (oprfi_client s) (oprfi_client_len s)
    p (oprfi_server_len s).
Definition set_oprfi_server_len (n : Z) (s : oprfi_session) : oprfi_session :=
  mkOprfi (entity s) (oprfi_cb s) (oprfi_client s) (oprfi_client_len s)
    (oprfi_server s) n.

(** [p != NULL] *)
Definition non_null (p : opaque_ptr) : bool :=
  match p with NullPtr => false | _ => true end.

(** The [n] bytes that [memcpy] reads at [p]; [None] when [p] is not a
    live block of at least [n] bytes (undefined behaviour). *)
Definition read_block (p : opaque_ptr) (n : Z) : option (list Z) :=
  match p with
  | Block bytes =>
      if (0 <=? n) && (n <=? Z.of_nat (length bytes))
      then Some (take (Z.to_nat n) bytes) else None
  | _ => None
  end.

(** [DECR_LEN (len, x)] and [DECR_LENGTH_RET (len, x, RET)]: subtract,
    and leave the function with an error code when the result is
    negative; otherwise go on with the new length. *)
Definition DECR_LENGTH_RET {A : Type} (len x : Z) (RET : A) (k : Z -> A) : A :=
  if len - x <? 0 then RET else k (len - x).
Definition DECR_LEN {A : Type} (len x : Z) (RET : Z -> A) (k : Z -> A) : A :=
  DECR_LENGTH_RET len x (RET GNUTLS_E_UNEXPECTED_PACKET_LENGTH) k.

(** [ssize_t data_size = _data_size;] with [_data_size] a [size_t]: the
    64 bits of the argument read as a two's-complement number, so that a
    size of 2^63 or more becomes negative. *)
Definition ssize_t_of_size_t (n : Z) : Z :=
  let n := n mod 2 ^ 64 in
  if n <? 2 ^ 63 then n else n - 2 ^ 64.

(** Whether an [ssize_t] can hold [z]. *)
Definition ssize_t_fits (z : Z) : bool := (- 2 ^ 63 <=? z) && (z <? 2 ^ 63).

(** [DECR_LENGTH_RET] on a length that may be anywhere in the range of
    [ssize_t]: [len -= x] is a signed subtraction, and undefined
    ([None]) when the difference does not fit. *)
Definition DECR_LENGTH_RET_ssize {A : Type} (len x : Z) (RET : A)
    (k : Z -> option A) : option A :=
  if ssize_t_fits (len - x) then DECR_LENGTH_RET len x (Some RET) k else None.

Section Oprfi.
(** [MHD_gtls_read_uint16] and [MHD_gtls_write_uint16] are declared in
    [gnutls_num.h], which is not among the sources: they are parameters
    here.  The first reads a 16-bit number at the start of its argument,
    the second answers the bytes it stores. *)
Variable MHD_gtls_read_uint16 : list Z -> Z.
Variable MHD_gtls_write_uint16 : Z -> list Z.
(** The compile-time switch that adds the client half. *)
Variable MHD_DEBUG_TLS : bool.

(** [oprfi_recv_server (session, data, _data_size)], where [data] holds
    the [_data_size] bytes of the extension and [malloc_ok] tells whether
    [MHD_gnutls_malloc] succeeds. *)
Definition oprfi_recv_server (s : oprfi_session) (data : list Z)
    (malloc_ok : bool) : Z * oprfi_session :=
  let data_size := Z.of_nat (length data) in
  match oprfi_cb s with
  | None => (0, s)
  | Some _ =>
      DECR_LEN data_size 2 (fun err => (err, s)) (fun data_size =>
      let len := MHD_gtls_read_uint16 data in
      let data := drop 2 data in
      if negb (len =? data_size) then (GNUTLS_E_UNEXPECTED_PACKET_LENGTH, s)
      else
        let s := set_oprfi_client_len len s in
        if malloc_ok
        then (0, set_oprfi_client (Block (take (Z.to_nat len) data)) s)
        else (GNUTLS_E_MEMORY_ERROR, set_oprfi_client NullPtr s))
  end.

(** [oprfi_recv_client] *)
Definition oprfi_recv_client (s : oprfi_session) (data : list Z)
    (malloc_ok : bool) : Z * oprfi_session :=
  let data_size := Z.of_nat (length data) in
  if negb (non_null (oprfi_client s)) then (0, s)
  else
    DECR_LEN data_size 2 (fun err => (err, s)) (fun data_size =>
    let len := MHD_gtls_read_uint16 data in
    let data := drop 2 data in
    if negb (len =? data_size) then (GNUTLS_E_UNEXPECTED_PACKET_LENGTH, s)
    else if negb (len =? oprfi_client_len s)
    then (GNUTLS_E_RECEIVED_ILLEGAL_PARAMETER, s)
    else
      let s := set_oprfi_server_len len s in
      if malloc_ok
      then (0, set_oprfi_server (Block (take (Z.to_nat len) data)) s)
      else (GNUTLS_E_MEMORY_ERROR, set_oprfi_server NullPtr s)).

(** [MHD_gtls_oprfi_recv_params] *)
Definition MHD_gtls_oprfi_recv_params (s : oprfi_session) (data : list Z)
    (malloc_ok : bool) : Z * oprfi_session :=
  if MHD_DEBUG_TLS && bool_decide (entity s = GNUTLS_CLIENT)
  then oprfi_recv_client s data malloc_ok
  else oprfi_recv_server s data malloc_ok.

(** [oprfi_send_client (session, data, _data_size)]: the value returned
    and the bytes written at the start of [data].  [None] is undefined
    behaviour: a [memcpy] from a pointer that is not a live block of
    [oprfi_client_len] bytes, or a length that overflows. *)
Definition oprfi_send_client (s : oprfi_session) (_data_size : Z)
    : option (Z * list Z) :=
  let data_size := ssize_t_of_size_t _data_size in
  let oprf_size := oprfi_client_len s in
  if oprf_size =? 0 then Some (0, [])
  else
    DECR_LENGTH_RET_ssize data_size 2 (GNUTLS_E_SHORT_MEMORY_BUFFER, [])
      (fun data_size =>
    let written := MHD_gtls_write_uint16 oprf_size in
    DECR_LENGTH_RET_ssize data_size oprf_size
      (GNUTLS_E_SHORT_MEMORY_BUFFER, written) (fun _ =>
    bytes ← read_block (oprfi_client s) oprf_size;
    Some (2 + oprf_size, written ++ bytes))).

(** [oprfi_send_server (session, data, _data_size)]: the value returned,
    the session afterwards and the bytes written at the start of
    [data].  [None] when the callback would be handed, or [memcpy] would
    read, a block that is not live or is shorter than the recorded
    length, or when a length overflows. *)
Definition oprfi_send_server (s : oprfi_session) (_data_size : Z)
    (malloc_ok : bool) : option (Z * oprfi_session * list Z) :=
  let data_size := ssize_t_of_size_t _data_size in
  match oprfi_cb s with
  | Some cb =>
      if negb (non_null (oprfi_client s)) then Some (0, s, [])
      else
        let s := set_oprfi_server_len (oprfi_client_len s) s in
        if negb malloc_ok
        then Some (GNUTLS_E_MEMORY_ERROR, set_oprfi_server NullPtr s, [])
        else
          client ← read_block (oprfi_client s) (oprfi_client_len s);
          let '(ret, out) := cb (oprfi_client_len s) client in
          let s := set_oprfi_server
                     (Block (take (Z.to_nat (oprfi_server_len s)) out)) s in
          if ret <? 0 then Some (ret, set_oprfi_server FreedPtr s, [])
          else
            DECR_LENGTH_RET_ssize data_size 2
              (GNUTLS_E_SHORT_MEMORY_BUFFER, s, []) (fun data_size =>
            let written := MHD_gtls_write_uint16 (oprfi_server_len s) in
            DECR_LENGTH_RET_ssize data_size (oprfi_server_len s)
              (GNUTLS_E_SHORT_MEMORY_BUFFER, s, written) (fun _ =>
            bytes ← read_block (oprfi_server s) (oprfi_server_len s);
            Some (2 + oprfi_server_len s, s, written ++ bytes)))
  | None => Some (0, s, [])
  end.

(** [MHD_gtls_oprfi_send_params] *)
Definition MHD_gtls_oprfi_send_params (s : oprfi_session) (data_size : Z)
    (malloc_ok : bool) : option (Z * oprfi_session * list Z) :=
  if MHD_DEBUG_TLS && bool_decide (entity s = GNUTLS_CLIENT)
  then (fun '(r, written) => (r, s, written)) <$> oprfi_send_client s data_size
  else oprfi_send_server s data_size malloc_ok.
End Oprfi.

(** What the round trips ask of the two 16-bit helpers: two bytes are
    written, and reading them back gives the number. *)
Definition uint16_codec (rd : list Z -> Z) (wr : Z -> list Z) : Prop :=
  (forall n, length (wr n) = 2%nat)
  /\ (forall n rest, 0 <= n < 65536 -> rd (wr n ++ rest) = n).

(** The network byte order, for the examples. *)
Definition be16_read (data : list Z) : Z :=
  match data with
  | hi :: lo :: _ => hi * 256 + lo
  | _ => 0
  end.
Definition be16_write (n : Z) : list Z := [n / 256; n mod 256].

(** * File names of literal packets ([literal.c]) *)

(** A C string is the list of its characters before the terminating
    NUL.  [strrchr (s, ch)], for a character other than NUL: the string
    from the last [ch] on, or [None] for the null pointer. *)
Fixpoint strrchr (s : list Z) (ch : Z) : option (list Z) :=
  match s with
  | [] => None
  | c :: rest =>
      match strrchr rest ch with
      | Some p => Some p
      | None => if c =? ch then Some (c :: rest) else None
      end
  end.

Definition char_slash : Z := 47.
Definition char_backslash : Z := 92.

(** [dup_trim_filename]: the copy that [cdk_strdup] returns, [None] when
    it has no memory for it. *)
Definition dup_trim_filename (s : list Z) (strdup_ok : bool) : option (list Z) :=
  let cdk_strdup (x : list Z) := if strdup_ok then Some x else None in
  match strrchr s char_slash with
  | Some p => cdk_strdup (drop 1 p)
  | None =>
      match strrchr s char_backslash with
      | Some p => cdk_strdup (drop 1 p)
      | None => cdk_strdup s
      end
  end.

(** * Verification of X.509 certificate chains ([verify.c]) *)

(** Flags of [gnutls_certificate_verify_flags] ([x509.h]). *)
Definition GNUTLS_VERIFY_DISABLE_CA_SIGN : Z := 1.
Definition GNUTLS_VERIFY_ALLOW_X509_V1_CA_CRT : Z := 2.
Definition GNUTLS_VERIFY_DO_NOT_ALLOW_SAME : Z := 4.
Definition GNUTLS_VERIFY_ALLOW_ANY_X509_V1_CA_CRT : Z := 8.
Definition GNUTLS_VERIFY_ALLOW_SIGN_RSA_MD2 : Z := 16.
Definition GNUTLS_VERIFY_ALLOW_SIGN_RSA_MD5 : Z := 32.

(** [flags & flag] as a condition *)
Definition flag_set (flags flag : Z) : bool := negb (Z.land flags flag =? 0).

(** What [verify.c] takes from elsewhere: the status bits and signature
    algorithms declared in [gnutls.h], and the functions of the X.509
    parser and of the signature check, none of them among the sources.
    A function that fills a datum answers its return value and the
    bytes of the datum. *)
Record x509_ops (Cert : Type) := mkX509 {
  GNUTLS_CERT_INVALID : Z;
  GNUTLS_CERT_SIGNER_NOT_FOUND : Z;
  GNUTLS_CERT_SIGNER_NOT_CA : Z;
  GNUTLS_CERT_INSECURE_ALGORITHM : Z;
  GNUTLS_SIGN_RSA_MD2 : Z;
  GNUTLS_SIGN_RSA_MD5 : Z;
  GNUTLS_E_NO_CERTIFICATE_FOUND : Z;
  (** [MHD__gnutls_x509_get_signed_data (c->cert, "tbsCertificate", ..)] *)
  x509_get_signed_data : Cert -> Z * list Z;
  (** [MHD__gnutls_x509_get_signature (c->cert, "signature", ..)] *)
  x509_get_signature : Cert -> Z * list Z;
  (** [MHD_gnutls_x509_crt_get_ca_status (c, NULL)] *)
  x509_crt_get_ca_status : Cert -> Z;
  x509_crt_get_raw_issuer_dn : Cert -> Z * list Z;
  x509_crt_get_raw_dn : Cert -> Z * list Z;
  x509_compare_raw_dn : list Z -> list Z -> Z;
  x509_crt_get_version : Cert -> Z;
  x509_crt_get_signature_algorithm : Cert -> Z;
  (** [MHD__gnutls_x509_verify_signature (tbs, signature, issuer)] *)
  x509_verify_signature : list Z -> list Z -> Cert -> Z
}.
Arguments GNUTLS_CERT_INVALID {Cert} _.
Arguments GNUTLS_CERT_SIGNER_NOT_FOUND {Cert} _.
Arguments GNUTLS_CERT_SIGNER_NOT_CA {Cert} _.
Arguments GNUTLS_CERT_INSECURE_ALGORITHM {Cert} _.
Arguments GNUTLS_SIGN_RSA_MD2 {Cert} _.
Arguments GNUTLS_SIGN_RSA_MD5 {Cert} _.
Arguments GNUTLS_E_NO_CERTIFICATE_FOUND {Cert} _.
Arguments x509_get_signed_data {Cert} _ _.
Arguments x509_get_signature {Cert} _ _.
Arguments x509_crt_get_ca_status {Cert} _ _.
Arguments x509_crt_get_raw_issuer_dn {Cert} _ _.
Arguments x509_crt_get_raw_dn {Cert} _ _.
Arguments x509_compare_raw_dn {Cert} _ _ _.
Arguments x509_crt_get_version {Cert} _ _.
Arguments x509_crt_get_signature_algorithm {Cert} _ _.
Arguments x509_verify_signature {Cert} _ _ _ _.

Section Verify.
Context {Cert : Type}.
Variable ops : x509_ops Cert.

(** [check_if_ca (cert, issuer, flags)] *)
Definition check_if_ca (cert issuer : Cert) (flags : Z) : Z :=
  let '(r1, issuer_signed_data) := x509_get_signed_data ops issuer in
  if r1 <? 0 then r1 else
  let '(r2, cert_signed_data) := x509_get_signed_data ops cert in
  if r2 <? 0 then r2 else
  let '(r3, issuer_signature) := x509_get_signature ops issuer in
  if r3 <? 0 then r3 else
  let '(r4, cert_signature) := x509_get_signature ops cert in
  if r4 <? 0 then r4 else
  if negb (flag_set flags GNUTLS_VERIFY_DO_NOT_ALLOW_SAME)
     && bool_decide (cert_signed_data = issuer_signed_data)
     && bool_decide (cert_signature = issuer_signature)
  then 1
  else if x509_crt_get_ca_status ops issuer =? 1 then 1
  else 0.

(** [is_issuer (cert, issuer_cert)] *)
Definition is_issuer (cert issuer_cert : Cert) : Z :=
  let '(r1, dn1) := x509_crt_get_raw_issuer_dn ops cert in
  if r1 <? 0 then r1 else
  let '(r2, dn2) := x509_crt_get_raw_dn ops issuer_cert in
  if r2 <? 0 then r2 else
  x509_compare_raw_dn ops dn1 dn2.

(** [find_issuer (cert, trusted_cas, tcas_size)], the array given as
    the list of its [tcas_size] elements; [None] is [NULL]. *)
Fixpoint find_issuer (cert : Cert) (trusted_cas : list Cert) : option Cert :=
  match trusted_cas with
  | [] => None
  | ca :: rest =>
      if is_issuer cert ca =? 1 then Some ca else find_issuer cert rest
  end.

(** [MHD__gnutls_verify_certificate2]: the value returned and the value
    left in [*output] (which the function writes only when the pointer
    is not null). *)
Definition MHD__gnutls_verify_certificate2 (cert : Cert)
    (trusted_cas : list Cert) (flags : Z) : Z * Z :=
  let not_found :=
    Z.lor 0 (Z.lor (GNUTLS_CERT_SIGNER_NOT_FOUND ops) (GNUTLS_CERT_INVALID ops)) in
  if negb (1 <=? Z.of_nat (length trusted_cas)) then (0, not_found) else
  match find_issuer cert trusted_cas with
  | None => (0, not_found)
  | Some issuer =>
      let issuer_version := x509_crt_get_version ops issuer in
      if issuer_version <? 0 then (issuer_version, 0) else
      if negb (flag_set flags GNUTLS_VERIFY_DISABLE_CA_SIGN)
         && negb (flag_set flags GNUTLS_VERIFY_ALLOW_X509_V1_CA_CRT
                  && (issuer_version =? 1))
         && (check_if_ca cert issuer flags =? 0)
      then (0, Z.lor 0 (Z.lor (GNUTLS_CERT_SIGNER_NOT_CA ops)
                               (GNUTLS_CERT_INVALID ops)))
      else
      let '(r1, cert_signed_data) := x509_get_signed_data ops cert in
      if r1 <? 0 then (r1, 0) else
      let '(r2, cert_signature) := x509_get_signature ops cert in
      if r2 <? 0 then (r2, 0) else
      let ret := x509_verify_signature ops cert_signed_data cert_signature issuer in
      let output :=
        if ret <? 0 then 0
        else if ret =? 0 then Z.lor 0 (GNUTLS_CERT_INVALID ops)
        else 0 in
      let output :=
        if is_issuer cert cert =? 0 then
          let sigalg := x509_crt_get_signature_algorithm ops cert in
          if ((sigalg =? GNUTLS_SIGN_RSA_MD2 ops)
              && negb (flag_set flags GNUTLS_VERIFY_ALLOW_SIGN_RSA_MD2))
             || ((sigalg =? GNUTLS_SIGN_RSA_MD5 ops)
                 && negb (flag_set flags GNUTLS_VERIFY_ALLOW_SIGN_RSA_MD5))
          then Z.lor output (Z.lor (GNUTLS_CERT_INSECURE_ALGORITHM ops)
                                   (GNUTLS_CERT_INVALID ops))
          else output
        else output in
      (ret, output)
  end.

(** [MHD_gnutls_x509_crt_check_issuer] *)
Definition MHD_gnutls_x509_crt_check_issuer (cert issuer : Cert) : Z :=
  is_issuer cert issuer.

(** The loop of [MHD__gnutls_x509_verify_certificate], entered with its
    counter at [i]: the status it returns.  [None] is a read outside
    [certificate_list]. *)
Fixpoint verify_chain_loop (certificate_list : list Cert) (i : nat) (flags : Z)
  : option Z :=
  match i with
  | O => Some 0
  | S i' =>
      let flags :=
        if negb (flag_set flags GNUTLS_VERIFY_ALLOW_ANY_X509_V1_CA_CRT)
        then Z.lxor flags GNUTLS_VERIFY_ALLOW_X509_V1_CA_CRT else flags in
      match certificate_list !! i', certificate_list !! i with
      | Some cert, Some issuer =>
          if fst (MHD__gnutls_verify_certificate2 cert [issuer] flags) =? 0
          then Some (Z.lor 0 (GNUTLS_CERT_INVALID ops))
          else verify_chain_loop certificate_list i' flags
      | _, _ => None
      end
  end.

(** [MHD__gnutls_x509_verify_certificate], the certificate list given as
    the list of its [clist_size] elements (the revocation lists are
    parameters that the function never reads).  [None] is the read of
    [certificate_list[-1]] for an empty list. *)
Definition MHD__gnutls_x509_verify_certificate (certificate_list : list Cert)
    (trusted_cas : list Cert) (flags : Z) : option Z :=
  let clist_size := length certificate_list in
  match last certificate_list with
  | None => None
  | Some top =>
      let '(ret, output) :=
        MHD__gnutls_verify_certificate2 top trusted_cas flags in
      if ret =? 0
      then Some (Z.lor (Z.lor 0 output) (GNUTLS_CERT_INVALID ops))
      else
        let clist_size :=
          if (0 <? MHD_gnutls_x509_crt_check_issuer top top)
             && (0 <? Z.of_nat clist_size)
          then (clist_size - 1)%nat else clist_size in
        verify_chain_loop certificate_list (clist_size - 1)%nat flags
  end.

(** [MHD_gnutls_x509_crt_list_verify]: the value returned and the value
    left in [*verify]; [cert_list] is [None] for a null pointer. *)
Definition MHD_gnutls_x509_crt_list_verify (cert_list : option (list Cert))
    (CA_list : list Cert) (flags : Z) (verify : Z) : option (Z * Z) :=
  match cert_list with
  | None | Some [] => Some (GNUTLS_E_NO_CERTIFICATE_FOUND ops, verify)
  | Some certs =>
      status ← MHD__gnutls_x509_verify_certificate certs CA_list flags;
      Some (0, status)
  end.

(** [MHD_gnutls_x509_crt_verify]: the value returned and the value left
    in [*verify]. *)
Definition MHD_gnutls_x509_crt_verify (cert : Cert) (CA_list : list Cert)
    (flags : Z) : Z * Z :=
  let '(ret, verify) := MHD__gnutls_verify_certificate2 cert CA_list flags in
  if ret <? 0 then (ret, verify) else (0, verify).
End Verify.

(** The change that one turn of the chain loop makes to the flags, and
    the flags after [k] turns. *)
Definition toggle_v1 (flags : Z) : Z :=
  if negb (flag_set flags GNUTLS_VERIFY_ALLOW_ANY_X509_V1_CA_CRT)
  then Z.lxor flags GNUTLS_VERIFY_ALLOW_X509_V1_CA_CRT else flags.
Definition link_flags (flags : Z) (k : nat) : Z := Nat.iter k toggle_v1 flags.

(** A toy certificate: its own name, the name of its issuer, its
    version, whether it is a CA, its signature algorithm and whether its
    signature is good; and the parser functions that read these. *)
Record toy_cert := mkToy {
  toy_name : Z;
  toy_issuer : Z;
  toy_version : Z;
  toy_ca : bool;
  toy_sigalg : Z;
  toy_signed_ok : bool
}.
Definition toy_ops : x509_ops toy_cert :=
  mkX509 toy_cert 2 64 128 256 4 3 (-49)
    (fun c => (0, [toy_name c; toy_issuer c]))
    (fun c => (0, [if toy_signed_ok c then 1 else 0]))
    (fun c => if toy_ca c then 1 else 0)
    (fun c => (0, [toy_issuer c]))
    (fun c => (0, [toy_name c]))
    (fun dn1 dn2 => if bool_decide (dn1 = dn2) then 1 else 0)
    toy_version
    toy_sigalg
    (fun tbs sig issuer => if bool_decide (sig = [1]) then 1 else 0).

(** A root CA, an intermediate CA of version 1 that is not marked as a
    CA, a server certificate signed with MD5, and a certificate whose
    version cannot be read. *)
Definition toy_root : toy_cert := mkToy 1 1 3 true 1 true.
Definition toy_v1_intermediate : toy_cert := mkToy 2 1 1 false 1 true.
Definition toy_leaf : toy_cert := mkToy 3 2 3 false 1 true.
Definition toy_md5 : toy_cert := mkToy 4 1 3 false 3 true.
Definition toy_broken_root : toy_cert := mkToy 1 1 (-1) true 1 true.

(** * Inputs used in the examples below *)

(** A notifier that clears the context of the request it is told about. *)
Definition notifier_clears : notifier := fun _ _ => 0.

(** A daemon with a timeout of ten seconds and a notifier, started
    without [MHD_USE_DEBUG]. *)
Definition daemon_10s : MHD_Daemon :=
  mkDaemon MHD_USE_SSL 10 (Some notifier_clears) true.

(** The daemon of the TLS test, started with
    [MHD_USE_THREAD_PER_CONNECTION | MHD_USE_SSL | MHD_USE_DEBUG], in a
    library built with messages. *)
Definition daemon_tls_test : MHD_Daemon :=
  mkDaemon (Z.lor MHD_USE_THREAD_PER_CONNECTION (Z.lor MHD_USE_SSL MHD_USE_DEBUG))
    0 None true.

(** A connection on descriptor 5, last active at time 0, in a secure
    sub-state that none of the handlers name. *)
Definition conn_serving : MHD_Connection :=
  mkConnection daemon_10s 5 (MHD_CONNECTION_OTHER 3) (MHDS_STATE_OTHER 1) 0
    (replicate 8 0) 4 8 [] 0 0
    fn_NULL fn_NULL fn_NULL fn_NULL fn_NULL
    (mkInternals 0 0 RESUME_TRUE VALID_TRUE) 0.

(** The same connection, active at time 100, in sub-state
    [MHDS_CONNECTION_CLOSED] with its descriptor still open. *)
Definition conn_substate_closed : MHD_Connection :=
  set_last_activity 100 (set_s_state MHDS_CONNECTION_CLOSED conn_serving).

(** A connection just accepted: no handshake has taken place. *)
Definition conn_accepted : MHD_Connection :=
  set_s_state MHDS_CONNECTION_INIT conn_serving.

(** The serving connection with a request context of the host on it. *)
Definition conn_with_context : MHD_Connection :=
  set_client_context 7 conn_serving.

(** A connection just accepted by the daemon of the TLS test. *)
Definition conn_tls_test : MHD_Connection :=
  mkConnection daemon_tls_test 5 (MHD_CONNECTION_OTHER 3) MHDS_CONNECTION_INIT 0
    (replicate 8 0) 0 8 [] 0 0
    fn_NULL fn_NULL fn_NULL fn_NULL fn_NULL
    (mkInternals 0 0 RESUME_TRUE VALID_TRUE) 0.

(** the peer's first byte announces a handshake record; the handshake
    fails with [code] *)
Definition env_handshake_fails (code : Z) : Env :=
  mkEnv 100 (Some GNUTLS_HANDSHAKE) 0 code.

Definition env_at (now : Z) : Env := mkEnv now None 0 0.
(** the peer's first byte announces an application-data record *)
Definition env_appdata : Env := mkEnv 100 (Some GNUTLS_APPLICATION_DATA) 0 0.
(** the peer's first byte announces a handshake record; the handshake succeeds *)
Definition env_handshake_ok : Env := mkEnv 100 (Some GNUTLS_HANDSHAKE) 0 0.

(** An alert record announcing a close-notify, a fatal alert, and some
    other alert. *)
Definition env_alert_of (alert : Z) : Env := mkEnv 100 (Some GNUTLS_ALERT) alert 0.

(** A connection with three bytes appended to its write buffer, the
    first of them sent. *)
Definition conn_writing : MHD_Connection :=
  mkConnection daemon_10s 5 (MHD_CONNECTION_OTHER 3) (MHDS_STATE_OTHER 1) 0
    [] 0 0 [10; 20; 30; 0] 1 3
    fn_NULL fn_NULL fn_NULL fn_NULL fn_NULL
    (mkInternals 0 0 RESUME_TRUE VALID_TRUE) 0.

(** A connection whose read buffer is empty so far. *)
Definition conn_reading : MHD_Connection :=
  mkConnection daemon_10s 5 (MHD_CONNECTION_OTHER 3) (MHDS_STATE_OTHER 1) 0
    (replicate 8 0) 0 8 [] 0 0
    fn_NULL fn_NULL fn_NULL fn_NULL fn_NULL
    (mkInternals 0 0 RESUME_TRUE VALID_TRUE) 0.

(** A client that offers the PRF input "hi", a server with a callback
    that answers the input with every byte incremented, and a server
    without a callback. *)
Definition oprfi_client_hi : oprfi_session :=
  mkOprfi GNUTLS_CLIENT None (Block [104; 105]) 2 NullPtr 0.
Definition cb_increment : oprfi_callback :=
  fun len client => (0, map (fun b => b + 1) client).
Definition oprfi_server_fresh : oprfi_session :=
  mkOprfi GNUTLS_SERVER (Some cb_increment) NullPtr 0 NullPtr 0.
Definition oprfi_server_no_cb : oprfi_session :=
  mkOprfi GNUTLS_SERVER None NullPtr 0 NullPtr 0.

(** Eight decrypted bytes waiting in the record layer. *)
Definition eight_bytes : list Z := [1; 2; 3; 4; 5; 6; 7; 8].

(** A two-byte buffer of the host at address 100, and the same memory
    after the host has overwritten it, and after the host has freed it. *)
Definition mem_hi : memory := <[100 := 72]> (<[101 := 105]> ∅).
Definition mem_overwritten : memory := <[100 := 0]> (<[101 := 0]> ∅).
Definition mem_freed : memory := ∅.


(** A reader that hands out four bytes, then nothing, then fails; its
    closure counts the calls. *)
Definition reader_abcd (cls : nat) (pos max : Z) : reader_result nat :=
  match cls with
  | O => mkReaderResult 4 [97; 98; 99; 100] 1%nat
  | S O => mkReaderResult 0 [] 2%nat
  | _ => mkReaderResult (-1) [] 3%nat
  end.

(** Whether a trace holds a call of [gnutls_handshake]. *)
Definition is_handshake_call (ev : event) : bool :=
  match ev with EvHandshake => true | _ => false end.
Definition handshake_called (t : list event) : bool :=
  existsb is_handshake_call t.

(** * Properties of the secure connection layer *)

(** Unfold one layer of the monad without unfolding the handlers. *)
Ltac msimpl := cbv beta iota; cbn [w_conn w_trace fst snd].

(** Turn boolean comparisons among the hypotheses into (in)equalities. *)
Ltac eqb_facts :=
  repeat match goal with
  | H : (_ =? _) = true |- _ => apply Z.eqb_eq in H
  | H : (_ =? _) = false |- _ => apply Z.eqb_neq in H
  end.

(** Split the secure read handler into its paths: the closed
    sub-state, the failed peek, and one goal for each record type (the
    alert case once for each kind of alert, the handshake case once for
    each result, the failed handshake once with and once without its
    message printed). *)
Ltac read_paths e c :=
  unfold run, MHDS_connection_handle_read, read_alert, read_handshake,
    modify_tls, bind, modify, call, conn, ret;
  msimpl; cbn [s_state set_last_activity];
  destruct (decide (s_state c = MHDS_CONNECTION_CLOSED)) as [Hs|Hs];
  [|destruct (env_peek e) as [m|] eqn:Hp;
    [msimpl;
     destruct (m =? GNUTLS_CHANGE_CIPHER_SPEC) eqn:E20;
     [|destruct (m =? GNUTLS_ALERT) eqn:E21;
       [destruct (env_alert e =? GNUTLS_A_CLOSE_NOTIFY) eqn:A0;
        [|destruct (env_alert e =? GNUTLS_AL_FATAL) eqn:A2]
       |destruct (m =? GNUTLS_APPLICATION_DATA) eqn:E23;
        [|destruct (m =? GNUTLS_HANDSHAKE) eqn:E22;
          [destruct (env_handshake e =? 0) eqn:H0|]]]]
    |]];
  msimpl; cbn [last_alert tls_session set_tls_session set_last_alert];
  repeat match goal with
         | H : (env_alert _ =? _) = _ |- _ => rewrite H
         end;
  cbn;
  try match goal with
      | |- context [if MHD_DLOG_prints (daemon c) then _ else _] =>
          destruct (MHD_DLOG_prints (daemon c)) eqn:Elog; cbn
      end;
  unfold GNUTLS_CHANGE_CIPHER_SPEC, GNUTLS_ALERT, GNUTLS_APPLICATION_DATA,
    GNUTLS_HANDSHAKE, GNUTLS_A_CLOSE_NOTIFY, GNUTLS_AL_FATAL in *;
  eqb_facts.

Lemma time_t_wrap_id (z : Z) :
  - 2 ^ 63 <= z < 2 ^ 63 -> time_t_wrap z = z.
Proof.
  intros Hz. unfold time_t_wrap.
  rewrite Z.mod_small; lia.
Qed.

Lemma idle_expired_spec (now timeout last : Z) :
  0 <= now < 2 ^ 63 -> 0 <= timeout < 2 ^ 32 ->
  idle_expired now timeout last = true <-> now - last > timeout.
Proof.
  intros Hn Ht. unfold idle_expired.
  rewrite time_t_wrap_id by lia.
  rewrite Z.gtb_gt. lia.
Qed.

(** What [connection_close_error] does to a world. *)
Lemma connection_close_error_run (c : MHD_Connection) (t : list event) :
  connection_close_error (mkWorld c t) =
  (tt, mkWorld (closed_by_error c) (t ++ close_error_calls c)).
Proof.
  unfold connection_close_error, notify, closed_by_error, context_after_close,
    close_error_calls, bind, conn, call, modify, ret; cbn.
  destruct (notify_completed (daemon c)); cbn;
    rewrite <- ?app_assoc; reflexivity.
Qed.

(** The fields of the connection that [connection_close_error] leaves
    behind. *)
Lemma closed_by_error_fields (c : MHD_Connection) :
  socket_fd (closed_by_error c) = -1
  /\ state (closed_by_error c) = MHD_CONNECTION_CLOSED
  /\ s_state (closed_by_error c) = s_state c
  /\ last_activity (closed_by_error c) = last_activity c
  /\ tls_session (closed_by_error c) = tls_session c
  /\ client_context (closed_by_error c) = context_after_close c
  /\ untouched_by_close c (closed_by_error c).
Proof. unfold untouched_by_close, callbacks. repeat split. Qed.

(** In a sub-state that the [switch] does not name, the idle handler is
    the timeout test alone. *)
Lemma idle_other_run (e : Env) (c : MHD_Connection) (n : Z) :
  s_state c = MHDS_STATE_OTHER n ->
  run (MHDS_connection_handle_idle e) c =
  if negb (socket_fd c =? -1) && negb (connection_timeout (daemon c) =? 0)
     && idle_expired (env_now e) (connection_timeout (daemon c)) (last_activity c)
  then (MHD_NO, snd (connection_close_error (mkWorld c [])))
  else (MHD_YES, mkWorld c []).
Proof.
  intros Hs.
  unfold run, MHDS_connection_handle_idle, idle_switch, bind, conn, ret.
  msimpl. rewrite Hs. msimpl.
  destruct (negb (socket_fd c =? -1) && negb (connection_timeout (daemon c) =? 0)
            && idle_expired (env_now e) (connection_timeout (daemon c)) (last_activity c));
    [|reflexivity].
  rewrite connection_close_error_run. reflexivity.
Qed.

(** C3 as stated fails: a connection whose descriptor is open, active at
    time 100 and handled at time 100 under a 10 second timeout, is closed
    by the idle handler although it has not been idle at all; its secure
    sub-state is [MHDS_CONNECTION_CLOSED], whose case of the [switch]
    closes an open descriptor whatever the timeout. *)
Lemma idle_closes_before_timeout :
  ~ (forall (e : Env) (c : MHD_Connection),
       socket_fd c <> -1 ->
       0 <= env_now e < 2 ^ 63 ->
       0 < connection_timeout (daemon c) < 2 ^ 32 ->
       (socket_fd (w_conn (run (MHDS_connection_handle_idle e) c).2) = -1
        <-> env_now e - last_activity c > connection_timeout (daemon c))).
Proof.
  intros H.
  specialize (H (env_at 100) conn_substate_closed).
  vm_compute in H.
  destruct H as [H _]; try discriminate; try (split; congruence).
  specialize (H eq_refl). discriminate.
Qed.

(** C3, amended.  For a connection with an open socket whose secure
    sub-state is not one of those that the handler's [switch] disposes
    of, and with the clock and the timeout in the range of their C types:
    under a timeout of 0 the idle handler leaves the connection as it is
    and returns [MHD_YES]; under a timeout t > 0 it closes the connection
    (descriptor forgotten, HTTP state CLOSED, [MHD_NO] returned) exactly
    when the current time minus the last activity exceeds t, and
    otherwise leaves it as it is.  In sub-state [MHDS_CONNECTION_CLOSED]
    the handler closes the open socket whatever the timeout and returns
    [MHD_YES]. *)
Theorem idle_timeout_exact (e : Env) (c : MHD_Connection) :
  socket_fd c <> -1 ->
  0 <= env_now e < 2 ^ 63 ->
  0 <= connection_timeout (daemon c) < 2 ^ 32 ->
  let r := (run (MHDS_connection_handle_idle e) c).1 in
  let w := (run (MHDS_connection_handle_idle e) c).2 in
  (forall n, s_state c = MHDS_STATE_OTHER n ->
     (connection_timeout (daemon c) = 0 -> r = MHD_YES /\ w = mkWorld c [])
     /\ (0 < connection_timeout (daemon c) ->
         (env_now e - last_activity c > connection_timeout (daemon c) ->
            r = MHD_NO /\ socket_fd (w_conn w) = -1
            /\ state (w_conn w) = MHD_CONNECTION_CLOSED)
         /\ (~ env_now e - last_activity c > connection_timeout (daemon c) ->
            r = MHD_YES /\ w = mkWorld c [])))
  /\ (s_state c = MHDS_CONNECTION_CLOSED ->
      r = MHD_YES /\ socket_fd (w_conn w) = -1
      /\ state (w_conn w) = MHD_CONNECTION_CLOSED).
Proof.
  intros Hfd Hnow Ht r w. split.
  - intros n Hs. subst r w. rewrite (idle_other_run e c n Hs).
    assert (Hopen : negb (socket_fd c =? -1) = true)
      by (apply negb_true_iff, Z.eqb_neq; exact Hfd).
    rewrite Hopen. cbn [andb].
    pose proof (idle_expired_spec (env_now e) (connection_timeout (daemon c))
                  (last_activity c) Hnow Ht) as Hexp.
    split.
    + intros H0. rewrite H0. cbn. split; reflexivity.
    + intros Hpos.
      assert (Hnz : negb (connection_timeout (daemon c) =? 0) = true)
        by (apply negb_true_iff, Z.eqb_neq; lia).
      rewrite Hnz. cbn [andb]. split.
      * intros Hgt. apply Hexp in Hgt. rewrite Hgt.
        rewrite connection_close_error_run. cbn. repeat split.
      * intros Hle.
        destruct (idle_expired (env_now e) (connection_timeout (daemon c))
                    (last_activity c)) eqn:E.
        -- exfalso. apply Hle, Hexp. reflexivity.
        -- split; reflexivity.
  - intros Hs. subst r w.
    unfold run, MHDS_connection_handle_idle, idle_switch, close_if_open,
      bind, conn, ret.
    msimpl. rewrite Hs. msimpl.
    assert (Hopen : negb (socket_fd c =? -1) = true)
      by (apply negb_true_iff, Z.eqb_neq; exact Hfd).
    rewrite Hopen. rewrite connection_close_error_run. msimpl.
    cbn. repeat split.
Qed.

Lemma idle_timeout_exact_witness :
  (run (MHDS_connection_handle_idle (env_at 100)) conn_serving).1 = MHD_NO.
Proof.
  assert (Hfd : socket_fd conn_serving <> -1) by (vm_compute; discriminate).
  assert (Hnow : 0 <= env_now (env_at 100) < 2 ^ 63) by (vm_compute; split; congruence).
  assert (Ht : 0 <= connection_timeout (daemon conn_serving) < 2 ^ 32)
    by (vm_compute; split; congruence).
  destruct (idle_timeout_exact (env_at 100) conn_serving Hfd Hnow Ht) as [H _].
  destruct (H 1 eq_refl) as [_ H2].
  destruct H2 as [H2 _]; [vm_compute; reflexivity|].
  destruct H2 as [H2 _]; [vm_compute; reflexivity|].
  exact H2.
Defined.

(** C10.  In secure sub-state [MHDS_CONNECTION_CLOSED] the secure read
    handler returns [MHD_NO] without a single external call (no peek at
    the socket, no GnuTLS call), and the connection it leaves differs
    from the one it found in [last_activity] only, which holds the
    current time. *)
Theorem read_closed_substate (e : Env) (c : MHD_Connection) :
  s_state c = MHDS_CONNECTION_CLOSED ->
  run (MHDS_connection_handle_read e) c =
    (Return MHD_NO, mkWorld (set_last_activity (env_now e) c) []).
Proof.
  intros Hs.
  unfold run, MHDS_connection_handle_read, bind, modify, conn, ret. msimpl.
  cbn [s_state set_last_activity]. rewrite Hs.
  rewrite decide_True by reflexivity. reflexivity.
Qed.

Lemma read_closed_substate_witness :
  run (MHDS_connection_handle_read env_appdata) conn_substate_closed =
    (Return MHD_NO, mkWorld (set_last_activity 100 conn_substate_closed) []).
Proof.
  apply (read_closed_substate env_appdata conn_substate_closed).
  reflexivity.
Defined.

(** C4 as stated fails: on a connection that has just been accepted
    (sub-state [MHDS_CONNECTION_INIT], no handshake made) a first byte
    announcing an application-data record makes the secure read handler
    hand the connection to the HTTP read handler. *)
Lemma read_dispatch_before_handshake :
  ~ (forall (e : Env) (c : MHD_Connection),
       (run (MHDS_connection_handle_read e) c).1
         = TailCall fn_MHD_connection_handle_read ->
       s_state c = MHDS_HANDSHAKE_COMPLETE).
Proof.
  intros H.
  specialize (H env_appdata conn_accepted eq_refl).
  discriminate H.
Qed.

(** C4, amended.  The secure read handler hands the connection to the
    HTTP read handler exactly when the sub-state is not
    [MHDS_CONNECTION_CLOSED] and the peeked record type is application
    data (whatever the handshake sub-state otherwise), and then it has
    changed nothing but [last_activity]; it calls [gnutls_handshake]
    exactly for a handshake record; the HTTP state is set to
    [MHD_CONNECTION_INIT] exactly when that call returns 0, together with
    the sub-state [MHDS_HANDSHAKE_COMPLETE] and the result [MHD_YES]; when
    the call fails and no message is printed (a library built without
    messages, or a daemon started without [MHD_USE_DEBUG]) the sub-state
    becomes [MHDS_HANDSHAKE_FAILED], the session is shut down and
    released, the descriptor is forgotten, the HTTP state is left alone
    and [MHD_NO] is returned.  The handler runs into undefined behaviour
    exactly when the call fails and the message is printed, since the
    message formats the [int] result of the call with [%s]. *)
Theorem read_dispatch_and_handshake (e : Env) (c : MHD_Connection) :
  let r := (run (MHDS_connection_handle_read e) c).1 in
  let w := (run (MHDS_connection_handle_read e) c).2 in
  (forall f, r = TailCall f <->
     f = fn_MHD_connection_handle_read
     /\ s_state c <> MHDS_CONNECTION_CLOSED
     /\ env_peek e = Some GNUTLS_APPLICATION_DATA)
  /\ (r = TailCall fn_MHD_connection_handle_read ->
      w = mkWorld (set_last_activity (env_now e) c) [EvPeek (socket_fd c)])
  /\ (handshake_called (w_trace w) = true <->
      s_state c <> MHDS_CONNECTION_CLOSED /\ env_peek e = Some GNUTLS_HANDSHAKE)
  /\ (r = Undefined <->
      handshake_called (w_trace w) = true
      /\ env_handshake e <> 0
      /\ MHD_DLOG_prints (daemon c) = true)
  /\ (r <> Undefined ->
      state (w_conn w) =
        (if handshake_called (w_trace w) && (env_handshake e =? 0)
         then MHD_CONNECTION_INIT else state c))
  /\ (handshake_called (w_trace w) = true -> env_handshake e = 0 ->
      s_state (w_conn w) = MHDS_HANDSHAKE_COMPLETE /\ r = Return MHD_YES)
  /\ (handshake_called (w_trace w) = true -> env_handshake e <> 0 ->
      MHD_DLOG_prints (daemon c) = false ->
      s_state (w_conn w) = MHDS_HANDSHAKE_FAILED
      /\ state (w_conn w) = state c
      /\ socket_fd (w_conn w) = -1
      /\ w_trace w = [EvPeek (socket_fd c); EvHandshake; EvBye; EvDeinit]
      /\ r = Return MHD_NO).
Proof.
  cbv zeta. read_paths e c;
  repeat split; intros;
  repeat match goal with H : _ /\ _ |- _ => destruct H end;
  try discriminate; try congruence; try lia; try tauto.
Qed.

(** The daemon of the TLS test prints its messages; on a connection of
    it, a handshake record whose handshake fails ends the secure read
    handler in undefined behaviour, before anything is written to the
    connection but [last_activity]. *)
Example read_failed_handshake_tls_test :
  MHD_DLOG_prints daemon_tls_test = true
  /\ run (MHDS_connection_handle_read (env_handshake_fails (-12))) conn_tls_test
     = (Undefined,
        mkWorld (set_last_activity 100 conn_tls_test) [EvPeek 5; EvHandshake]).
Proof. split; reflexivity. Qed.

(** The secure write handler: in each sub-state that its [switch] names
    it closes a socket that is still open and returns [MHD_NO]. *)
Lemma write_named_substate (e : Env) (c : MHD_Connection) :
  (forall n, s_state c <> MHDS_STATE_OTHER n) ->
  (run (MHDS_connection_handle_write e) c).1 = Return MHD_NO
  /\ socket_fd (w_conn (run (MHDS_connection_handle_write e) c).2) = -1.
Proof.
  intros Hs.
  unfold run, MHDS_connection_handle_write, close_if_open, bind, modify, conn, ret.
  msimpl. cbn [s_state socket_fd set_last_activity].
  destruct (s_state c) eqn:E; try (exfalso; eapply Hs; reflexivity);
    msimpl; cbn [socket_fd set_last_activity];
    (destruct (socket_fd c =? -1) eqn:Efd; cbn [negb];
     [eqb_facts; cbn; split; [reflexivity|assumption]
     |rewrite connection_close_error_run; cbn; split; reflexivity]).
Qed.

(** C9.  [MHD_set_https_calbacks] stores the TLS record functions in
    [recv_cls] and [send_cls] and the secure read handler in
    [read_handler]; the write handler and the idle handler it stores are
    the plain [MHD_connection_handle_write] and
    [MHD_connection_handle_idle], not the secure variants; no other field
    of the connection changes. *)
Theorem set_https_callbacks_installed (c : MHD_Connection) :
  let c' := MHD_set_https_calbacks c in
  recv_cls c' = fn_MHDS_con_read
  /\ send_cls c' = fn_MHDS_con_write
  /\ read_handler c' = fn_MHDS_connection_handle_read
  /\ write_handler c' = fn_MHD_connection_handle_write
  /\ idle_handler c' = fn_MHD_connection_handle_idle
  /\ write_handler c' <> fn_MHDS_connection_handle_write
  /\ idle_handler c' <> fn_MHDS_connection_handle_idle
  /\ c' = set_callbacks (recv_cls c') (send_cls c') (read_handler c')
             (write_handler c') (idle_handler c') c.
Proof.
  cbn. repeat split; discriminate.
Qed.

(** A record layer that holds pending bytes honours its contract. *)
Lemma pending_layer_ok (pending : list Z) : record_layer_ok (pending_layer pending).
Proof.
  intros n data Hn [= <-]. rewrite length_take. lia.
Qed.

(** [MHDS_con_read] asks for [read_buffer_size] bytes wherever the
    offset stands, while [MHDS_con_write] offers what lies between its
    two offsets. *)
Lemma con_requests (c : MHD_Connection) :
  MHDS_con_read_request c = (read_buffer_offset c, read_buffer_size c)
  /\ MHDS_con_write_request c =
       (write_buffer_send_offset c,
        write_buffer_append_offset c - write_buffer_send_offset c).
Proof. split; reflexivity. Qed.

(** With the offset at 0 the read stays inside the buffer. *)
Lemma con_read_safe_at_zero (L : record_layer) (c : MHD_Connection) :
  record_layer_ok L ->
  read_buffer_offset c = 0 ->
  Z.of_nat (length (read_buffer c)) = read_buffer_size c ->
  (MHDS_con_read L c).2 <> None.
Proof.
  intros HL Hoff Hlen. unfold MHDS_con_read, MHDS_con_read_request.
  destruct (L (read_buffer_size c)) as [bytes|code] eqn:E; cbn; [|discriminate].
  unfold store_bytes. rewrite Hoff.
  assert (Z.of_nat (length bytes) <= read_buffer_size c) by (apply HL; [lia|exact E]).
  replace (0 + Z.of_nat (length bytes) <=? Z.of_nat (length (read_buffer c))) with true
    by (symmetry; apply Z.leb_le; lia).
  cbn. discriminate.
Qed.

(** C6, evaluated on the code.  A connection whose read buffer has a
    capacity of 8 bytes and whose read offset is 4 reads from a record
    layer that holds 8 decrypted bytes and never delivers more than it is
    asked for: [MHDS_con_read] asks for 8 bytes (the capacity, not the 4
    that are left), the layer delivers 8, and the copy to offset 4 leaves
    the buffer. *)
Theorem con_read_overruns_buffer :
  Z.of_nat (length (read_buffer conn_serving)) = read_buffer_size conn_serving
  /\ record_layer_ok (pending_layer eight_bytes)
  /\ MHDS_con_read_request conn_serving = (4, 8)
  /\ read_buffer_size conn_serving - read_buffer_offset conn_serving = 4
  /\ MHDS_con_read (pending_layer eight_bytes) conn_serving = (8, None).
Proof.
  split; [reflexivity|]. split; [apply pending_layer_ok|].
  repeat split.
Qed.

(** * Properties of the public API *)

(** The flags select the mode: no mode flag is external mode. *)
Lemma operating_mode_external (opts : Z) :
  operating_mode_of opts = Some ExternalMode <->
  Z.land opts MHD_USE_THREAD_PER_CONNECTION = 0
  /\ Z.land opts MHD_USE_SELECT_INTERNALLY = 0.
Proof.
  unfold operating_mode_of, has_option.
  destruct (Z.land opts MHD_USE_THREAD_PER_CONNECTION =? 0) eqn:E4;
  destruct (Z.land opts MHD_USE_SELECT_INTERNALLY =? 0) eqn:E8;
  eqb_facts; cbn; split; intros H; try discriminate; try tauto;
  destruct H; congruence.
Qed.

(** The daemon of the TLS test is started with
    [MHD_USE_THREAD_PER_CONNECTION | MHD_USE_SSL | MHD_USE_DEBUG]. *)
Example operating_mode_of_tls_test :
  operating_mode_of
    (Z.lor MHD_USE_THREAD_PER_CONNECTION (Z.lor MHD_USE_SSL MHD_USE_DEBUG))
  = Some ThreadPerConnection
  /\ operating_mode_of MHD_USE_SELECT_INTERNALLY = Some InternalSelect
  /\ operating_mode_of (Z.lor MHD_USE_IPv4 MHD_USE_DEBUG) = Some ExternalMode.
Proof. repeat split. Qed.




(** ** [MHD_queue_response] *)

Lemma queue_all_queued (session : MHD_Session) (calls : list (Z * Z)) :
  response session <> None ->
  queue_all session calls = (replicate (length calls) MHD_NO, session).
Proof.
  intros Hq. induction calls as [|[st rp] rest IH]; [reflexivity|].
  cbn [queue_all]. unfold MHD_queue_response.
  destruct (response session) eqn:E; [|congruence].
  rewrite IH. reflexivity.
Qed.

Lemma successes_all_no (n : nat) : successes (replicate n MHD_NO) = 0%nat.
Proof.
  unfold successes. induction n as [|n IH]; [reflexivity|].
  cbn [replicate]. rewrite filter_cons_False by discriminate. exact IH.
Qed.

(** C5.  [MHD_queue_response] returns [MHD_NO] and leaves the session as
    it is when a response is already queued; otherwise it returns
    [MHD_YES] and records the response and the status code on the
    session.  However many times the handler calls it for one request,
    at most one call succeeds, and the response in flight at the end is
    the one that was in flight at the start or, when there was none,
    the first one offered. *)
Theorem queue_response_once (session : MHD_Session) (status_code resp : Z) :
  (response session <> None ->
     MHD_queue_response session status_code resp = (MHD_NO, session))
  /\ (response session = None ->
     MHD_queue_response session status_code resp
       = (MHD_YES, mkSession (Some resp) status_code))
  /\ (forall calls : list (Z * Z),
       (successes (queue_all session calls).1 <= 1)%nat
       /\ (response session <> None ->
           successes (queue_all session calls).1 = 0%nat
           /\ (queue_all session calls).2 = session)
       /\ (response session = None ->
           response (queue_all session calls).2 = snd <$> head calls)).
Proof.
  split; [|split].
  - intros Hq. unfold MHD_queue_response.
    destruct (response session); [reflexivity|congruence].
  - intros Hq. unfold MHD_queue_response. rewrite Hq. reflexivity.
  - intros calls.
    assert (Hqueued : response session <> None ->
              successes (queue_all session calls).1 = 0%nat
              /\ (queue_all session calls).2 = session).
    { intros Hq. rewrite (queue_all_queued session calls Hq). cbn.
      split; [apply successes_all_no|reflexivity]. }
    assert (Hfree : response session = None ->
              (successes (queue_all session calls).1 <= 1)%nat
              /\ response (queue_all session calls).2 = snd <$> head calls).
    { intros Hq. destruct calls as [|[st rp] rest]; cbn [queue_all].
      - cbn. rewrite Hq. split; [lia|reflexivity].
      - unfold MHD_queue_response. rewrite Hq.
        rewrite (queue_all_queued (mkSession (Some rp) st) rest) by discriminate.
        cbn [fst snd head fmap option_fmap option_map response].
        split; [|reflexivity].
        unfold successes. rewrite filter_cons_True by reflexivity.
        cbn [length]. fold (successes (replicate (length rest) MHD_NO)).
        rewrite successes_all_no. lia. }
    destruct (response session) as [q|] eqn:E.
    + destruct Hqueued as [H0 Hs]; [discriminate|].
      split; [lia|]. split; [intros _; split; assumption|discriminate].
    + destruct Hfree as [H1 Hh]; [reflexivity|].
      split; [exact H1|]. split; [congruence|intros _; exact Hh].
Qed.

(** ** Streaming a callback response *)

Lemma sum_nonneg_snoc (calls : list (Z * Z)) (p n : Z) :
  sum_nonneg (calls ++ [(p, n)]) = sum_nonneg calls + Z.max 0 n.
Proof.
  unfold sum_nonneg. induction calls as [|c calls IH]; cbn in *; lia.
Qed.

Lemma calls_consistent_snoc (calls : list (Z * Z)) (n : Z) :
  calls_consistent calls ->
  calls_consistent (calls ++ [(sum_nonneg calls, n)]).
Proof.
  intros Hc pre p r post Heq.
  destruct post as [|x post'] using rev_ind.
  - apply app_inj_tail in Heq as [-> [= <- <-]]. reflexivity.
  - clear IHpost'. rewrite app_comm_cons, app_assoc in Heq.
    apply app_inj_tail in Heq as [Heq _].
    exact (Hc pre p r post' Heq).
Qed.

Lemma sum_nonneg_app (xs ys : list (Z * Z)) :
  sum_nonneg (xs ++ ys) = sum_nonneg xs + sum_nonneg ys.
Proof.
  unfold sum_nonneg. induction xs as [|x xs IH]; cbn in *; lia.
Qed.

Lemma sum_nonneg_nonneg (xs : list (Z * Z)) : 0 <= sum_nonneg xs.
Proof.
  unfold sum_nonneg. induction xs as [|x xs IH]; cbn in *; lia.
Qed.

Section StreamInvariant.
Context {S : Type}.
Variable reader : S -> Z -> Z -> reader_result S.
Variable mode : operating_mode.

Lemma stream_start_inv (cls : S) : stream_inv (stream_start cls).
Proof.
  split; [|reflexivity].
  intros pre p r post Heq. cbn in Heq. by destruct pre.
Qed.

Lemma stream_step_inv (max : Z) (s : stream S) :
  stream_inv s -> stream_inv (stream_step reader mode max s).
Proof.
  intros [Hc Hp]. unfold stream_step.
  destruct (st_status s) eqn:Hst; try (split; [exact Hc|rewrite Hst; discriminate]).
  specialize (Hp eq_refl).
  set (n := rr_ret (reader (st_cls s) (st_pos s) max)).
  assert (Hc' : calls_consistent (st_calls s ++ [(st_pos s, n)]))
    by (rewrite Hp at 1; apply calls_consistent_snoc, Hc).
  destruct (n =? -1) eqn:E1; [split; [exact Hc'|discriminate]|].
  destruct (n =? 0) eqn:E0.
  { split; [exact Hc'|]. cbn. intros _.
    rewrite sum_nonneg_snoc, Hp. apply Z.eqb_eq in E0. lia. }
  destruct ((0 <? n) && (n <=? max)) eqn:Eok; [|split; [exact Hc'|discriminate]].
  split; [exact Hc'|]. cbn. intros _.
  rewrite sum_nonneg_snoc, Hp.
  apply andb_true_iff in Eok as [Hpos _]. apply Z.ltb_lt in Hpos. lia.
Qed.

Lemma stream_run_inv (maxs : list Z) (s : stream S) :
  stream_inv s -> stream_inv (stream_run reader mode maxs s).
Proof.
  unfold stream_run. revert s.
  induction maxs as [|max maxs IH]; intros s Hs; [exact Hs|].
  cbn [foldl]. apply IH, stream_step_inv, Hs.
Qed.

(** A step never forgets a call. *)
Lemma stream_step_calls (max : Z) (s : stream S) :
  st_calls s `prefix_of` st_calls (stream_step reader mode max s).
Proof.
  unfold stream_step.
  destruct (st_status s); try reflexivity.
  repeat match goal with |- context [if ?b then _ else _] => destruct b end;
    cbn; by apply prefix_app_r.
Qed.

Lemma stream_run_calls (maxs : list Z) (s : stream S) :
  st_calls s `prefix_of` st_calls (stream_run reader mode maxs s).
Proof.
  unfold stream_run. revert s.
  induction maxs as [|max maxs IH]; intros s; [reflexivity|].
  cbn [foldl]. etrans; [apply stream_step_calls|apply IH].
Qed.

(** The first step of a fresh stream calls the reader at position 0. *)
Lemma stream_first_call (max : Z) (cls : S) :
  exists r, st_calls (stream_step reader mode max (stream_start cls)) = [(0, r)].
Proof.
  exists (rr_ret (reader cls 0 max)).
  unfold stream_step, stream_start. cbn.
  repeat match goal with |- context [if ?b then _ else _] => destruct b end;
    reflexivity.
Qed.
End StreamInvariant.

(** C7.  While a callback response is streamed for one queuing, every
    invocation of the content reader receives as [pos] the sum of the
    nonnegative values the reader returned in the earlier invocations of
    that queuing: the first invocation, which takes place as soon as
    there is room in the write buffer, receives 0, and a later invocation
    never receives less than an earlier one.  This holds for every
    reader, whatever it keeps in its closure, hence also when the
    response is queued again elsewhere. *)
Theorem reader_pos_is_sum (S : Type) (reader : S -> Z -> Z -> reader_result S)
    (mode : operating_mode) (maxs : list Z) (cls : S) :
  let s := stream_run reader mode maxs (stream_start cls) in
  (forall pre p r post,
      st_calls s = pre ++ (p, r) :: post -> p = sum_nonneg pre)
  /\ (maxs <> [] -> exists r rest, st_calls s = (0, r) :: rest)
  /\ (forall pre p r mid q r' post,
      st_calls s = pre ++ (p, r) :: mid ++ (q, r') :: post -> p <= q).
Proof.
  intros s.
  destruct (stream_run_inv reader mode maxs (stream_start cls)
              (stream_start_inv cls)) as [Hc _].
  fold s in Hc. split; [exact Hc|]. split.
  - intros Hne. destruct maxs as [|max rest]; [congruence|].
    subst s. unfold stream_run. cbn [foldl].
    destruct (stream_first_call reader mode max cls) as [r Hr].
    pose proof (stream_run_calls reader mode rest
                  (stream_step reader mode max (stream_start cls))) as [k Hk].
    unfold stream_run in Hk. rewrite Hr in Hk.
    exists r, k. exact Hk.
  - intros pre p r mid q r' post Heq.
    pose proof (Hc pre p r _ Heq) as Hp.
    replace (pre ++ (p, r) :: mid ++ (q, r') :: post)
      with ((pre ++ (p, r) :: mid) ++ (q, r') :: post) in Heq
      by (rewrite <- app_assoc; reflexivity).
    pose proof (Hc _ q r' _ Heq) as Hq.
    rewrite sum_nonneg_app in Hq.
    pose proof (sum_nonneg_nonneg ((p, r) :: mid)).
    lia.
Qed.

(** Scenario 4 of the specification: the reader hands out "abcd", then
    0 bytes, then -1. *)
Example stream_abcd :
  let s := stream_run reader_abcd ThreadPerConnection [10; 10; 10; 10]
             (stream_start 0%nat) in
  st_calls s = [(0, 4); (4, 0); (4, -1)]
  /\ st_out s = [97; 98; 99; 100]
  /\ st_status s = StreamError.
Proof. repeat split. Qed.

(** ** [MHD_create_response_from_data] *)

(** C8.  A response created from a buffer with [must_copy] set transmits
    the bytes that the buffer held when the response was created,
    whatever the memory of the host holds when the body is sent: two
    runs that differ only in what the caller does to its buffer after
    the call put the same bytes on the wire. *)
Theorem copied_response_independent (h : memory) (size addr : Z)
    (must_free : bool) (r : MHD_Response) :
  MHD_create_response_from_data h size addr must_free true = Some r ->
  forall h1 h2 : memory,
    transmitted_body h1 r = transmitted_body h2 r
    /\ transmitted_body h1 r = read_mem h addr (Z.to_nat size).
Proof.
  unfold MHD_create_response_from_data. intros Hc h1 h2.
  destruct (read_mem h addr (Z.to_nat size)) as [bytes|] eqn:E;
    cbn in Hc; [|discriminate].
  injection Hc as <-. unfold transmitted_body. cbn. split; reflexivity.
Qed.

Lemma copied_response_independent_witness :
  exists r,
    MHD_create_response_from_data mem_hi 2 100 false true = Some r
    /\ transmitted_body mem_overwritten r = transmitted_body mem_freed r
    /\ transmitted_body mem_overwritten r = Some [72; 105].
Proof.
  exists (mkResponse 2 (OwnedCopy [72; 105]) true).
  assert (Hc : MHD_create_response_from_data mem_hi 2 100 false true
               = Some (mkResponse 2 (OwnedCopy [72; 105]) true))
    by (vm_compute; reflexivity).
  split; [exact Hc|].
  destruct (copied_response_independent mem_hi 2 100 false _ Hc
              mem_overwritten mem_freed) as [H1 H2].
  split; [exact H1|]. rewrite H2. vm_compute. reflexivity.
Defined.

(** Without [must_copy] the bytes on the wire are those the buffer holds
    when the body is sent. *)
Example borrowed_response_follows_buffer :
  exists r,
    MHD_create_response_from_data mem_hi 2 100 false false = Some r
    /\ transmitted_body mem_hi r = Some [72; 105]
    /\ transmitted_body mem_overwritten r = Some [0; 0]
    /\ transmitted_body mem_freed r = None.
Proof.
  exists (mkResponse 2 (Borrowed 100) false).
  repeat split; vm_compute; reflexivity.
Qed.

(** * Further properties of the secure connection layer *)

(** ** The read handler on all of its paths *)

(** The fields the secure read handler leaves alone, path by path. *)
Lemma read_frame_all (e : Env) (c : MHD_Connection) :
  let c' := w_conn (run (MHDS_connection_handle_read e) c).2 in
  last_activity c' = env_now e /\ untouched c c'.
Proof.
  unfold untouched, callbacks.
  read_paths e c; repeat split.
Qed.

(** X1.  The secure read handler stamps [last_activity] with the current time
    on every path, the failing ones included, and writes neither the
    daemon, the buffers and their offsets, the callbacks nor the client
    context: it never moves a byte into the read buffer itself. *)
Theorem read_frame (e : Env) (c : MHD_Connection) :
  let c' := w_conn (run (MHDS_connection_handle_read e) c).2 in
  last_activity c' = env_now e /\ untouched c c'.
Proof. exact (read_frame_all e c).
Qed.

(** X2.  Diagnostic messages apart, and unless it runs into the
    undefined behaviour of the failed-handshake message, the secure read
    handler never shuts down or closes a descriptor and never tells the
    notifier: no [shutdown], [close] or notifier call is in its trace,
    whose calls all go to GnuTLS or peek at the socket.  The only value
    it ever assigns to [socket_fd] is -1, and on exactly the paths that
    end with [socket_fd] changed the TLS session has been released:
    [gnutls_deinit] is then the last call of the trace.  (The alert
    paths assign -1 before that call and the failed handshake after it;
    the trace records calls, not assignments, and the theorem states no
    order between the two.)  The only HTTP state the handler ever
    assigns is [MHD_CONNECTION_INIT]. *)
Theorem read_never_closes (e : Env) (c : MHD_Connection) :
  (run (MHDS_connection_handle_read e) c).1 <> Undefined ->
  let w := (run (MHDS_connection_handle_read e) c).2 in
  (forall fd, EvShutdown fd ∉ w_trace w)
  /\ (forall fd, EvClose fd ∉ w_trace w)
  /\ (forall code, EvNotify code ∉ w_trace w)
  /\ Forall (fun ev => is_tls_call ev = true) (w_trace w)
  /\ (socket_fd (w_conn w) = socket_fd c \/ socket_fd (w_conn w) = -1)
  /\ (socket_fd (w_conn w) <> socket_fd c -> last (w_trace w) = Some EvDeinit)
  /\ (state (w_conn w) = state c \/ state (w_conn w) = MHD_CONNECTION_INIT).
Proof.
  cbv zeta. read_paths e c; intros Hdef; try congruence;
    (split; [intros fd Hin|split; [intros fd Hin|split; [intros code Hin|]]]);
    try (repeat (apply elem_of_cons in Hin as [Hin|Hin]; [discriminate|]);
         by apply elem_of_nil in Hin);
    (split; [repeat constructor|]);
    (split; [try (left; reflexivity); try (right; reflexivity)|]);
    (split; [intros Hfd; try congruence; try reflexivity|]);
    try (left; reflexivity); try (right; reflexivity).
Qed.

Lemma read_never_closes_witness :
  let w := (run (MHDS_connection_handle_read (env_handshake_fails (-12)))
              conn_accepted).2 in
  (EvClose 5 ∉ w_trace w)
  /\ socket_fd (w_conn w) = -1
  /\ last (w_trace w) = Some EvDeinit.
Proof.
  assert (Hdef : (run (MHDS_connection_handle_read (env_handshake_fails (-12)))
                    conn_accepted).1 <> Undefined)
    by (vm_compute; discriminate).
  destruct (read_never_closes (env_handshake_fails (-12)) conn_accepted Hdef)
    as (_ & Hclose & _ & _ & _ & Hlast & _).
  split; [exact (Hclose 5)|]. split; [reflexivity|].
  apply Hlast. vm_compute. discriminate.
Defined.

(** X3.  The secure read handler returns [MHD_NO] exactly when the secure
    sub-state is [MHDS_CONNECTION_CLOSED], or the peek at the socket
    fails, or an alert record leaves [last_alert] equal to
    [GNUTLS_AL_FATAL], or a handshake record is followed by a failing
    handshake whose message is not printed (a library built without
    messages, or a daemon started without [MHD_USE_DEBUG]).  A failing
    handshake whose message is printed is the one path on which the
    handler runs into undefined behaviour: the message formats the
    [int] result with [%s].  In every other case the handler returns
    [MHD_YES] or hands over to the HTTP read handler. *)
Theorem read_returns_no_iff (e : Env) (c : MHD_Connection) :
  let r := (run (MHDS_connection_handle_read e) c).1 in
  (r = Return MHD_NO <->
     s_state c = MHDS_CONNECTION_CLOSED
     \/ env_peek e = None
     \/ (env_peek e = Some GNUTLS_ALERT /\ env_alert e = GNUTLS_AL_FATAL)
     \/ (env_peek e = Some GNUTLS_HANDSHAKE /\ env_handshake e <> 0
         /\ MHD_DLOG_prints (daemon c) = false))
  /\ (r = Undefined <->
     s_state c <> MHDS_CONNECTION_CLOSED
     /\ env_peek e = Some GNUTLS_HANDSHAKE /\ env_handshake e <> 0
     /\ MHD_DLOG_prints (daemon c) = true)
  /\ (r = Return MHD_NO \/ r = Return MHD_YES
      \/ r = TailCall fn_MHD_connection_handle_read
      \/ r = Undefined).
Proof.
  cbv zeta.
  destruct (MHD_DLOG_prints (daemon c)) eqn:Elog0;
  read_paths e c;
    try rewrite Elog0 in *;
    (split; [split; [intros Hr|intros Hc]|split; [split; [intros Hr|intros Hc]|]]);
    try discriminate;
    try reflexivity;
    try (left; reflexivity); try (right; left; reflexivity);
    try (right; right; left; reflexivity);
    try (right; right; right; reflexivity);
    try (left; assumption);
    try (right; right; left; split; congruence);
    try (right; right; right; repeat split; congruence);
    try (repeat split; congruence);
    try (exfalso;
         repeat match goal with
                | H : _ \/ _ |- _ => destruct H
                | H : _ /\ _ |- _ => destruct H
                end;
         try congruence; try discriminate;
         try match goal with
             | H : Some _ = Some _ |- _ => injection H as H; lia
             end; lia).
Qed.

(** X4.  The three outcomes of an alert record on a connection whose
    sub-state is not CLOSED.  A close-notify: the session is told bye and
    released, [read_eof] is set, the descriptor is forgotten, and the
    handler returns [MHD_YES].  [last_alert = GNUTLS_AL_FATAL]: the
    session is marked neither resumable nor valid and released without a
    bye, the descriptor is forgotten, and the handler returns [MHD_NO].
    Any other alert: only [last_alert] and [last_activity] change and
    the handler returns [MHD_YES]. *)
Theorem read_alert_outcomes (e : Env) (c : MHD_Connection) :
  s_state c <> MHDS_CONNECTION_CLOSED ->
  env_peek e = Some GNUTLS_ALERT ->
  let r := (run (MHDS_connection_handle_read e) c).1 in
  let w := (run (MHDS_connection_handle_read e) c).2 in
  let c1 := set_last_activity (env_now e) c in
  let tls1 := set_last_alert (env_alert e) (tls_session c) in
  (env_alert e = GNUTLS_A_CLOSE_NOTIFY ->
     r = Return MHD_YES
     /\ w_conn w = set_socket_fd (-1)
                     (set_tls_session (set_read_eof 1 tls1) c1)
     /\ w_trace w = [EvPeek (socket_fd c); EvRecvInt; EvBye; EvDeinit])
  /\ (env_alert e = GNUTLS_AL_FATAL ->
     r = Return MHD_NO
     /\ w_conn w = set_socket_fd (-1)
                     (set_tls_session
                        (set_valid_connection VALID_FALSE
                           (set_resumable RESUME_FALSE tls1)) c1)
     /\ w_trace w = [EvPeek (socket_fd c); EvRecvInt; EvDeinit])
  /\ (env_alert e <> GNUTLS_A_CLOSE_NOTIFY -> env_alert e <> GNUTLS_AL_FATAL ->
     r = Return MHD_YES
     /\ w_conn w = set_tls_session tls1 c1
     /\ w_trace w = [EvPeek (socket_fd c); EvRecvInt]).
Proof.
  intros Hopen Hpeek.
  read_paths e c; try congruence;
    injection Hpeek as Hm; subst; try lia;
    (split; [intros Ha|split; [intros Ha|intros Ha1 Ha2]]);
    try lia; try congruence; repeat split.
Qed.

Lemma read_alert_outcomes_witness :
  (run (MHDS_connection_handle_read (env_alert_of GNUTLS_AL_FATAL)) conn_accepted).1
    = Return MHD_NO
  /\ socket_fd (w_conn (run (MHDS_connection_handle_read
                              (env_alert_of GNUTLS_AL_FATAL)) conn_accepted).2) = -1.
Proof.
  assert (Hopen : s_state conn_accepted <> MHDS_CONNECTION_CLOSED)
    by (vm_compute; discriminate).
  destruct (read_alert_outcomes (env_alert_of GNUTLS_AL_FATAL) conn_accepted
              Hopen eq_refl) as (_ & Hfatal & _).
  destruct (Hfatal eq_refl) as (Hr & Hc & _).
  split; [exact Hr|]. rewrite Hc. reflexivity.
Defined.

(** X5.  A record whose type is neither alert, handshake nor application
    data (a change-cipher-spec, an inner-application record, or any
    other first byte) is passed over: the handler returns [MHD_YES],
    has only peeked at the socket, and leaves the connection as it was
    but for [last_activity]. *)
Theorem read_passes_over_other_records (e : Env) (c : MHD_Connection) (ty : Z) :
  s_state c <> MHDS_CONNECTION_CLOSED ->
  env_peek e = Some ty ->
  ty <> GNUTLS_ALERT -> ty <> GNUTLS_HANDSHAKE -> ty <> GNUTLS_APPLICATION_DATA ->
  run (MHDS_connection_handle_read e) c =
    (Return MHD_YES,
     mkWorld (set_last_activity (env_now e) c) [EvPeek (socket_fd c)]).
Proof.
  intros Hopen Hpeek H21 H22 H23.
  unfold GNUTLS_ALERT, GNUTLS_HANDSHAKE, GNUTLS_APPLICATION_DATA in *.
  read_paths e c; try congruence;
    injection Hpeek as Hm; subst; try lia; reflexivity.
Qed.

Lemma read_passes_over_other_records_witness :
  run (MHDS_connection_handle_read
         (mkEnv 100 (Some GNUTLS_CHANGE_CIPHER_SPEC) 0 0)) conn_accepted =
    (Return MHD_YES, mkWorld (set_last_activity 100 conn_accepted) [EvPeek 5]).
Proof.
  apply (read_passes_over_other_records
           (mkEnv 100 (Some GNUTLS_CHANGE_CIPHER_SPEC) 0 0) conn_accepted
           GNUTLS_CHANGE_CIPHER_SPEC);
    [vm_compute; discriminate | reflexivity
    | vm_compute; discriminate | vm_compute; discriminate
    | vm_compute; discriminate].
Defined.

(** ** The write handler *)

(** X6.  The secure write handler never reports success.  In each of the
    four sub-states its [switch] names it returns [MHD_NO] and leaves
    the descriptor at -1: a socket that was open is shut down, closed
    and reported to the notifier as terminated with error, a socket that
    was gone already makes no call.  In any other sub-state the handler
    never returns.  [last_activity] holds the current time either way. *)
Theorem write_outcome (e : Env) (c : MHD_Connection) :
  let r := (run (MHDS_connection_handle_write e) c).1 in
  let w := (run (MHDS_connection_handle_write e) c).2 in
  r <> Return MHD_YES
  /\ (r = Diverges <-> exists n, s_state c = MHDS_STATE_OTHER n)
  /\ (r <> Diverges ->
      r = Return MHD_NO
      /\ socket_fd (w_conn w) = -1
      /\ w_trace w = (if socket_fd c =? -1 then [] else close_error_calls c))
  /\ last_activity (w_conn w) = env_now e.
Proof.
  unfold run, MHDS_connection_handle_write, close_if_open, close_error_calls,
    bind, modify, conn, ret.
  msimpl. cbn [s_state socket_fd set_last_activity].
  destruct (s_state c) eqn:E; msimpl; cbn [socket_fd set_last_activity];
    try (destruct (socket_fd c =? -1) eqn:Efd; cbn [negb];
         [eqb_facts|rewrite connection_close_error_run]; cbn;
         (split; [discriminate|]);
         (split; [split; [discriminate|intros [n Hn]; discriminate]|]);
         (split; [intros _; repeat split; assumption || reflexivity|reflexivity])).
  cbn. split; [discriminate|].
  split; [split; [eauto|reflexivity]|].
  split; [congruence|reflexivity].
Qed.

(** ** The idle handler *)

Lemma close_if_open_run (c : MHD_Connection) (t : list event) :
  close_if_open (mkWorld c t) =
  if socket_fd c =? -1 then (tt, mkWorld c t)
  else (tt, mkWorld (closed_by_error c) (t ++ close_error_calls c)).
Proof.
  unfold close_if_open, bind, conn, ret. msimpl.
  destruct (socket_fd c =? -1); cbn [negb]; [reflexivity|].
  apply connection_close_error_run.
Qed.

Lemma idle_switch_run (c : MHD_Connection) :
  idle_switch (mkWorld c []) =
  match s_state c with
  | MHDS_HANDSHAKE_FAILED => (tt, mkWorld (set_socket_fd (-1) c) [])
  | MHDS_STATE_OTHER _ => (tt, mkWorld c [])
  | _ => if socket_fd c =? -1 then (tt, mkWorld c [])
         else (tt, mkWorld (closed_by_error c) (close_error_calls c))
  end.
Proof.
  unfold idle_switch, bind, conn, modify, ret. msimpl.
  destruct (s_state c); msimpl; rewrite ?close_if_open_run; try reflexivity.
Qed.

(** The idle handler after its [switch]: the timeout test on whatever
    the [switch] left. *)
Lemma idle_after_switch (e : Env) (c : MHD_Connection) :
  run (MHDS_connection_handle_idle e) c =
  let w1 := (idle_switch (mkWorld c [])).2 in
  let c1 := w_conn w1 in
  if negb (socket_fd c1 =? -1) && negb (connection_timeout (daemon c1) =? 0)
     && idle_expired (env_now e) (connection_timeout (daemon c1)) (last_activity c1)
  then (MHD_NO, mkWorld (closed_by_error c1)
                  (w_trace w1 ++ close_error_calls c1))
  else (MHD_YES, w1).
Proof.
  unfold run, MHDS_connection_handle_idle, bind at 1.
  destruct (idle_switch (mkWorld c [])) as [[] [c1 t1]].
  unfold bind, conn, ret. msimpl.
  destruct (negb (socket_fd c1 =? -1) && negb (connection_timeout (daemon c1) =? 0)
            && idle_expired (env_now e) (connection_timeout (daemon c1)) (last_activity c1));
    [|reflexivity].
  rewrite connection_close_error_run. reflexivity.
Qed.

(** X7.  Without a socket the idle handler does nothing: it returns [MHD_YES],
    makes no call and leaves the connection as it is, in every sub-state
    and whatever the timeout. *)
Theorem idle_noop_without_socket (e : Env) (c : MHD_Connection) :
  socket_fd c = -1 ->
  run (MHDS_connection_handle_idle e) c = (MHD_YES, mkWorld c []).
Proof.
  intros Hfd.
  assert (Hc : set_socket_fd (-1) c = c)
    by (destruct c; cbn in *; subst; reflexivity).
  rewrite idle_after_switch, idle_switch_run.
  destruct (s_state c); rewrite ?Hc, ?Hfd, ?Z.eqb_refl; cbv zeta;
    cbn [fst snd w_conn w_trace]; rewrite Hfd, Z.eqb_refl; reflexivity.
Qed.

Lemma idle_noop_without_socket_witness :
  run (MHDS_connection_handle_idle (env_at 100)) (set_socket_fd (-1) conn_serving)
    = (MHD_YES, mkWorld (set_socket_fd (-1) conn_serving) []).
Proof.
  apply (idle_noop_without_socket (env_at 100) (set_socket_fd (-1) conn_serving)).
  reflexivity.
Defined.

(** X8.  In each of the four sub-states that the [switch] of the idle handler
    names, the handler returns [MHD_YES] with the descriptor at -1,
    whatever the clock and the timeout.  In [MHDS_HANDSHAKE_FAILED] it
    only forgets the descriptor: no shutdown, no close, no notification,
    HTTP state unchanged.  In the other three an open socket is shut
    down, closed and reported as terminated with error, and the
    connection is left as [connection_close_error] leaves it: descriptor
    -1, HTTP state closed, and in [client_context] whatever a registered
    notifier, which is handed the address of that field, has put
    there. *)
Theorem idle_named_substates (e : Env) (c : MHD_Connection) :
  (forall n, s_state c <> MHDS_STATE_OTHER n) ->
  let r := (run (MHDS_connection_handle_idle e) c).1 in
  let w := (run (MHDS_connection_handle_idle e) c).2 in
  r = MHD_YES
  /\ socket_fd (w_conn w) = -1
  /\ (s_state c = MHDS_HANDSHAKE_FAILED ->
      w = mkWorld (set_socket_fd (-1) c) [])
  /\ (s_state c <> MHDS_HANDSHAKE_FAILED -> socket_fd c <> -1 ->
      w = mkWorld (closed_by_error c) (close_error_calls c)
      /\ state (w_conn w) = MHD_CONNECTION_CLOSED
      /\ client_context (w_conn w) = context_after_close c).
Proof.
  intros Hs. cbv zeta.
  rewrite idle_after_switch, idle_switch_run.
  destruct (s_state c) eqn:E; try (exfalso; eapply Hs; reflexivity);
    try (destruct (socket_fd c =? -1) eqn:Efd; eqb_facts);
    cbv zeta;
    cbn [fst snd w_conn w_trace socket_fd set_socket_fd set_state
         closed_by_error set_client_context];
    rewrite ?Efd, ?Z.eqb_refl; cbn;
    repeat split; intros; congruence.
Qed.

(** A connection just accepted, with the context 7 of the host on it:
    the notifier of the daemon clears the context. *)
Lemma idle_named_substates_witness :
  let c := set_client_context 7 conn_accepted in
  (run (MHDS_connection_handle_idle (env_at 100)) c).1 = MHD_YES
  /\ socket_fd (w_conn (run (MHDS_connection_handle_idle (env_at 100)) c).2) = -1
  /\ client_context (w_conn (run (MHDS_connection_handle_idle (env_at 100)) c).2)
     = 0.
Proof.
  cbv zeta.
  assert (Hs : forall n, s_state (set_client_context 7 conn_accepted)
                         <> MHDS_STATE_OTHER n)
    by (intros n; vm_compute; discriminate).
  destruct (idle_named_substates (env_at 100)
              (set_client_context 7 conn_accepted) Hs) as (Hr & Hfd & _ & Hcl).
  split; [exact Hr|]. split; [exact Hfd|].
  destruct Hcl as (_ & _ & Hctx);
    [vm_compute; discriminate | vm_compute; discriminate |].
  rewrite Hctx. reflexivity.
Defined.

(** The shape of one call of the idle handler. *)
Lemma idle_shape (e : Env) (c : MHD_Connection) :
  let r := (run (MHDS_connection_handle_idle e) c).1 in
  let w := (run (MHDS_connection_handle_idle e) c).2 in
  ((w_trace w = []
    /\ state (w_conn w) = state c
    /\ client_context (w_conn w) = client_context c)
   \/ (socket_fd c <> -1 /\ w_trace w = close_error_calls c
       /\ socket_fd (w_conn w) = -1
       /\ state (w_conn w) = MHD_CONNECTION_CLOSED
       /\ client_context (w_conn w) = context_after_close c))
  /\ (r = MHD_NO ->
      w = mkWorld (closed_by_error c) (close_error_calls c)
      /\ socket_fd c <> -1
      /\ connection_timeout (daemon c) <> 0
      /\ idle_expired (env_now e) (connection_timeout (daemon c))
           (last_activity c) = true)
  /\ (r = MHD_NO \/ r = MHD_YES)
  /\ last_activity (w_conn w) = last_activity c
  /\ s_state (w_conn w) = s_state c
  /\ tls_session (w_conn w) = tls_session c
  /\ untouched_by_close c (w_conn w).
Proof.
  cbv zeta. unfold untouched_by_close, callbacks.
  rewrite idle_after_switch, idle_switch_run.
  assert (Hopen : forall fd b1 b2,
             negb (fd =? -1) && negb b1 && b2 = true ->
             fd <> -1 /\ b1 = false /\ b2 = true).
  { intros fd b1 b2 Hb. apply andb_true_iff in Hb as [Hb Hb2].
    apply andb_true_iff in Hb as [Hb Hb1].
    apply negb_true_iff in Hb, Hb1. eqb_facts. auto. }
  destruct (s_state c) eqn:E;
    try (destruct (socket_fd c =? -1) eqn:Efd; eqb_facts);
    cbv zeta;
    cbn [fst snd w_conn w_trace socket_fd set_socket_fd set_state
         closed_by_error set_client_context daemon last_activity];
    rewrite ?Efd, ?Z.eqb_refl;
    try (destruct (negb (socket_fd c =? -1)
                   && negb (connection_timeout (daemon c) =? 0)
                   && idle_expired (env_now e) (connection_timeout (daemon c))
                        (last_activity c)) eqn:Ex;
         [apply Hopen in Ex as (Ex1 & Ex2 & Ex3); eqb_facts|]);
    cbn; repeat split; intros;
    first [ reflexivity | discriminate | congruence | assumption
          | left; repeat split; reflexivity | right; reflexivity
          | right; repeat split; (assumption || reflexivity) ].
Qed.

(** X9.  One call of the idle handler disposes of the socket at most once:
    either it makes no call at all, and then leaves the HTTP state and
    [client_context] as they were, or the socket was open and the calls
    are those of a single [connection_close_error] on the descriptor the
    connection had (so the notifier hears of it at most once, and only
    with [MHD_REQUEST_TERMINATED_WITH_ERROR]); [client_context] then
    holds whatever a registered notifier, which is handed the address of
    that field, has put there.  The handler returns [MHD_NO] only after
    such a close, and it never writes [last_activity], the sub-state,
    the TLS session, the daemon, the buffers and their offsets or the
    callbacks. *)
Theorem idle_closes_at_most_once (e : Env) (c : MHD_Connection) :
  let r := (run (MHDS_connection_handle_idle e) c).1 in
  let w := (run (MHDS_connection_handle_idle e) c).2 in
  ((w_trace w = []
    /\ state (w_conn w) = state c
    /\ client_context (w_conn w) = client_context c)
   \/ (socket_fd c <> -1 /\ w_trace w = close_error_calls c
       /\ socket_fd (w_conn w) = -1
       /\ state (w_conn w) = MHD_CONNECTION_CLOSED
       /\ client_context (w_conn w) = context_after_close c))
  /\ (r = MHD_NO -> w_trace w = close_error_calls c)
  /\ (r = MHD_NO \/ r = MHD_YES)
  /\ last_activity (w_conn w) = last_activity c
  /\ s_state (w_conn w) = s_state c
  /\ tls_session (w_conn w) = tls_session c
  /\ untouched_by_close c (w_conn w).
Proof.
  destruct (idle_shape e c) as (H1 & H2 & H3 & H4 & H5 & H6 & H7).
  cbv zeta in *. repeat split; try assumption.
  - intros Hr. destruct (H2 Hr) as [Hw _]. rewrite Hw. reflexivity.
  - apply H7.
  - apply H7.
  - apply H7.
  - apply H7.
  - apply H7.
  - apply H7.
  - apply H7.
  - apply H7.
Qed.

(** C2 as stated fails: a connection on descriptor 5 of a daemon with a
    timeout of ten seconds and a registered notifier, idle since time 0,
    is handled at time 100.  The idle handler closes it for its idleness
    and returns [MHD_NO], but the notifier is not told
    [MHD_REQUEST_TERMINATED_TIMEOUT_REACHED]. *)
Lemma idle_timeout_not_reported_as_timeout :
  ~ (forall (e : Env) (c : MHD_Connection),
       (run (MHDS_connection_handle_idle e) c).1 = MHD_NO ->
       notify_completed (daemon c) <> None ->
       EvNotify MHD_REQUEST_TERMINATED_TIMEOUT_REACHED
         ∈ w_trace (run (MHDS_connection_handle_idle e) c).2).
Proof.
  intros H.
  specialize (H (env_at 100) conn_serving eq_refl).
  assert (Hn : notify_completed (daemon conn_serving) <> None)
    by (vm_compute; discriminate).
  specialize (H Hn). vm_compute in H.
  repeat (apply elem_of_cons in H as [H|H]; [discriminate|]).
  by apply elem_of_nil in H.
Qed.

(** C2, amended.  The idle handler returns [MHD_NO] only from its
    timeout test.  When it does, the socket was open, the timeout is not
    0 and the connection has been idle for longer; the calls made are a
    shutdown and a close of the descriptor the connection had, followed,
    if a notifier is registered on the daemon, by one call of that
    notifier with [MHD_REQUEST_TERMINATED_WITH_ERROR], the code of every
    close this file makes (no other call of the notifier is made, and
    none with [MHD_REQUEST_TERMINATED_TIMEOUT_REACHED]).  The connection
    is left with descriptor -1 and HTTP state closed, and with whatever
    the notifier has put in [client_context]. *)
Theorem idle_timeout_notifies_with_error (e : Env) (c : MHD_Connection) :
  (run (MHDS_connection_handle_idle e) c).1 = MHD_NO ->
  let w := (run (MHDS_connection_handle_idle e) c).2 in
  socket_fd c <> -1
  /\ connection_timeout (daemon c) <> 0
  /\ idle_expired (env_now e) (connection_timeout (daemon c)) (last_activity c)
     = true
  /\ w_trace w =
       [EvShutdown (socket_fd c); EvClose (socket_fd c)]
       ++ match notify_completed (daemon c) with
          | Some _ => [EvNotify MHD_REQUEST_TERMINATED_WITH_ERROR]
          | None => []
          end
  /\ (forall code, EvNotify code ∈ w_trace w ->
        code = MHD_REQUEST_TERMINATED_WITH_ERROR
        /\ notify_completed (daemon c) <> None)
  /\ socket_fd (w_conn w) = -1
  /\ state (w_conn w) = MHD_CONNECTION_CLOSED
  /\ client_context (w_conn w) =
       match notify_completed (daemon c) with
       | Some f => f (client_context c) MHD_REQUEST_TERMINATED_WITH_ERROR
       | None => client_context c
       end.
Proof.
  intros Hr. cbv zeta.
  destruct (idle_shape e c) as (_ & H2 & _).
  destruct (H2 Hr) as (Hw & Hfd & Ht & Hx).
  rewrite Hw. cbn [w_conn w_trace].
  split; [exact Hfd|]. split; [exact Ht|]. split; [exact Hx|].
  split; [reflexivity|].
  split; [|repeat split].
  intros code Hin. unfold close_error_calls in Hin.
  destruct (notify_completed (daemon c)) eqn:En; cbn in Hin;
    repeat (apply elem_of_cons in Hin as [Hin|Hin];
            [first [ discriminate Hin
                   | injection Hin as Hin; subst code;
                     split; [reflexivity|discriminate] ]|]);
    by apply elem_of_nil in Hin.
Qed.

Lemma idle_timeout_notifies_with_error_witness :
  let w := (run (MHDS_connection_handle_idle (env_at 100)) conn_with_context).2 in
  w_trace w = [EvShutdown 5; EvClose 5; EvNotify MHD_REQUEST_TERMINATED_WITH_ERROR]
  /\ socket_fd (w_conn w) = -1
  /\ state (w_conn w) = MHD_CONNECTION_CLOSED
  /\ client_context conn_with_context = 7
  /\ client_context (w_conn w) = 0.
Proof.
  destruct (idle_timeout_notifies_with_error (env_at 100) conn_with_context
              eq_refl) as (_ & _ & _ & Ht & _ & Hfd & Hst & Hctx).
  cbv zeta. split; [exact Ht|]. split; [exact Hfd|]. split; [exact Hst|].
  split; [reflexivity|]. rewrite Hctx. reflexivity.
Defined.

(** ** How the handlers compose *)

(** X10.  [connection_close_error] marks the HTTP state closed but leaves the
    secure sub-state alone, and the secure read handler looks at the
    sub-state only: called on a connection that [connection_close_error]
    has just closed, in a sub-state other than CLOSED, it does not return
    at once but peeks at descriptor -1. *)
Theorem read_after_close_error (e : Env) (c : MHD_Connection) :
  s_state c <> MHDS_CONNECTION_CLOSED ->
  let c1 := w_conn (run connection_close_error c).2 in
  s_state c1 = s_state c
  /\ socket_fd c1 = -1
  /\ state c1 = MHD_CONNECTION_CLOSED
  /\ exists rest,
       w_trace (run (MHDS_connection_handle_read e) c1).2 = EvPeek (-1) :: rest.
Proof.
  intros Hopen. unfold run at 1. rewrite connection_close_error_run.
  cbv zeta. cbn [snd w_conn].
  set (c1 := closed_by_error c).
  assert (Hs1 : s_state c1 = s_state c) by reflexivity.
  assert (Hfd : socket_fd c1 = -1) by reflexivity.
  repeat split.
  clearbody c1.
  read_paths e c1; try congruence; rewrite ?Hfd; eauto.
Qed.

Lemma read_after_close_error_witness :
  exists rest,
    w_trace (run (MHDS_connection_handle_read env_handshake_ok)
               (w_conn (run connection_close_error conn_serving).2)).2
    = EvPeek (-1) :: rest.
Proof.
  assert (Hs : s_state conn_serving <> MHDS_CONNECTION_CLOSED)
    by (vm_compute; discriminate).
  destruct (read_after_close_error env_handshake_ok conn_serving Hs)
    as (_ & _ & _ & H).
  exact H.
Defined.

(** X11.  The callbacks that [MHD_set_https_calbacks] installs stay installed:
    none of the three secure handlers writes a callback field. *)
Theorem callbacks_survive_handlers (e : Env) (c : MHD_Connection) :
  let installed := callbacks (MHD_set_https_calbacks c) in
  installed = [fn_MHDS_con_read; fn_MHDS_con_write;
               fn_MHDS_connection_handle_read;
               fn_MHD_connection_handle_write; fn_MHD_connection_handle_idle]
  /\ callbacks (w_conn (run (MHDS_connection_handle_read e)
                          (MHD_set_https_calbacks c)).2) = installed
  /\ callbacks (w_conn (run (MHDS_connection_handle_write e)
                          (MHD_set_https_calbacks c)).2) = installed
  /\ callbacks (w_conn (run (MHDS_connection_handle_idle e)
                          (MHD_set_https_calbacks c)).2) = installed.
Proof.
  cbv zeta. split; [reflexivity|]. split; [|split].
  - destruct (read_frame_all e (MHD_set_https_calbacks c)) as [_ Hu].
    unfold untouched in Hu. tauto.
  - set (c1 := MHD_set_https_calbacks c).
    unfold run, MHDS_connection_handle_write, bind, modify, conn, ret.
    msimpl. cbn [s_state set_last_activity].
    destruct (s_state c1); msimpl; try reflexivity;
      rewrite close_if_open_run; cbn [socket_fd set_last_activity];
      destruct (socket_fd c1 =? -1); reflexivity.
  - destruct (idle_shape e (MHD_set_https_calbacks c))
      as (_ & _ & _ & _ & _ & _ & Hu).
    unfold untouched_by_close in Hu. tauto.
Qed.

(** ** The transport *)

(** X12.  For a read buffer as long as [read_buffer_size] says and a read
    offset that is not negative, the copy made by [MHDS_con_read] stays
    in the buffer exactly when the bytes that the record layer delivers
    fit between the offset and the end.  When it does, the bytes stand at
    the offset, the rest of the buffer and its length are as before, the
    returned size is the number of bytes delivered, and the read offset
    itself is not advanced. *)
Theorem con_read_in_bounds_iff (L : record_layer) (c : MHD_Connection)
    (bytes : list Z) :
  Z.of_nat (length (read_buffer c)) = read_buffer_size c ->
  0 <= read_buffer_offset c ->
  L (read_buffer_size c) = RecvBytes bytes ->
  let n := Z.of_nat (length bytes) in
  ((MHDS_con_read L c).2 <> None <->
     read_buffer_offset c + n <= read_buffer_size c)
  /\ (MHDS_con_read L c).1 = n
  /\ (forall c', (MHDS_con_read L c).2 = Some c' ->
        read_buffer c' =
          take (Z.to_nat (read_buffer_offset c)) (read_buffer c) ++ bytes
          ++ drop (Z.to_nat (read_buffer_offset c) + length bytes)%nat (read_buffer c)
        /\ length (read_buffer c') = length (read_buffer c)
        /\ read_buffer_offset c' = read_buffer_offset c
        /\ read_buffer_size c' = read_buffer_size c).
Proof.
  intros Hlen Hoff HL n.
  unfold MHDS_con_read, MHDS_con_read_request. rewrite HL.
  unfold store_bytes. cbn [fst snd].
  replace (0 <=? read_buffer_offset c) with true by (symmetry; apply Z.leb_le; lia).
  cbn [andb].
  destruct (read_buffer_offset c + Z.of_nat (length bytes)
            <=? Z.of_nat (length (read_buffer c))) eqn:E.
  - apply Z.leb_le in E. cbn. split; [split; [lia|discriminate]|].
    split; [reflexivity|]. intros c' [= <-]. cbn. repeat split.
    rewrite !length_app, length_take, length_drop. lia.
  - apply Z.leb_gt in E. cbn. split; [split; [congruence|lia]|].
    split; [reflexivity|]. intros c'. discriminate.
Qed.

Lemma con_read_in_bounds_iff_witness :
  (MHDS_con_read (pending_layer eight_bytes) conn_reading).2 <> None
  /\ (MHDS_con_read (pending_layer eight_bytes) conn_reading).1 = 8.
Proof.
  destruct (con_read_in_bounds_iff (pending_layer eight_bytes) conn_reading
              eight_bytes eq_refl) as (Hin & Hn & _).
  - vm_compute. discriminate.
  - reflexivity.
  - split; [apply Hin; vm_compute; discriminate | exact Hn].
Defined.

(** X13.  [MHDS_con_write] reads inside the write buffer exactly when
    [0 <= write_buffer_send_offset <= write_buffer_append_offset] and the
    append offset is within the buffer; it then offers to the record
    layer the bytes appended but not yet sent, neither more nor fewer,
    and returns what the record layer answers. *)
Theorem con_write_offers_unsent (L : send_layer) (c : MHD_Connection) :
  let sent := write_buffer_send_offset c in
  let appended := write_buffer_append_offset c in
  let unsent := take (Z.to_nat (appended - sent))
                  (drop (Z.to_nat sent) (write_buffer c)) in
  (MHDS_con_write L c <> None <->
     0 <= sent <= appended /\ appended <= Z.of_nat (length (write_buffer c)))
  /\ (0 <= sent <= appended -> appended <= Z.of_nat (length (write_buffer c)) ->
      MHDS_con_write L c = Some (L unsent)
      /\ Z.of_nat (length unsent) = appended - sent).
Proof.
  cbv zeta. unfold MHDS_con_write, MHDS_con_write_request, load_bytes.
  destruct ((0 <=? write_buffer_send_offset c)
            && (0 <=? write_buffer_append_offset c - write_buffer_send_offset c)
            && (write_buffer_send_offset c
                + (write_buffer_append_offset c - write_buffer_send_offset c)
                <=? Z.of_nat (length (write_buffer c)))) eqn:E.
  - apply andb_true_iff in E as [E E3]. apply andb_true_iff in E as [E1 E2].
    apply Z.leb_le in E1, E2, E3. cbn.
    split; [split; [lia|discriminate]|].
    intros _ _. split; [reflexivity|].
    rewrite length_take, length_drop. lia.
  - cbn. split.
    + split; [congruence|]. intros [[H1 H2] H3]. exfalso.
      apply not_true_iff_false in E. apply E.
      rewrite !andb_true_iff, !Z.leb_le. lia.
    + intros [H1 H2] H3. exfalso.
      apply not_true_iff_false in E. apply E.
      rewrite !andb_true_iff, !Z.leb_le. lia.
Qed.

(** The three bytes appended to the buffer of [conn_writing], the first
    of them sent already: the record layer is offered the other two. *)
Example con_write_example :
  MHDS_con_write (fun unsent => Z.of_nat (length unsent)) conn_writing = Some 2
  /\ MHDS_con_write (fun unsent => foldr Z.add 0 unsent) conn_writing = Some 50.
Proof. split; reflexivity. Qed.

(** * The opaque PRF input extension *)

(** The cases of [oprfi_recv_server]. *)
Lemma recv_server_cases (rd : list Z -> Z) (s : oprfi_session)
    (data : list Z) (malloc_ok : bool) :
  let r := oprfi_recv_server rd s data malloc_ok in
  let n := Z.of_nat (length data) - 2 in
  (oprfi_cb s = None -> r = (0, s))
  /\ (oprfi_cb s <> None -> n < 0 \/ rd data <> n ->
      r = (GNUTLS_E_UNEXPECTED_PACKET_LENGTH, s))
  /\ (oprfi_cb s <> None -> 0 <= n -> rd data = n ->
      r = if malloc_ok
          then (0, set_oprfi_client (Block (drop 2 data))
                     (set_oprfi_client_len n s))
          else (GNUTLS_E_MEMORY_ERROR,
                set_oprfi_client NullPtr (set_oprfi_client_len n s))).
Proof.
  cbv zeta. unfold oprfi_recv_server, DECR_LEN, DECR_LENGTH_RET.
  destruct (oprfi_cb s) as [cb|]; (split; [|split]); try congruence;
    try reflexivity.
  - intros _ Hbad.
    destruct (Z.of_nat (length data) - 2 <? 0) eqn:E; [reflexivity|].
    apply Z.ltb_ge in E.
    destruct (rd data =? Z.of_nat (length data) - 2) eqn:E2; [|reflexivity].
    apply Z.eqb_eq in E2. lia.
  - intros _ Hn Hrd.
    replace (Z.of_nat (length data) - 2 <? 0) with false
      by (symmetry; apply Z.ltb_ge; lia).
    rewrite Hrd, Z.eqb_refl. cbn [negb].
    rewrite take_ge by (rewrite length_drop; lia).
    destruct malloc_ok; reflexivity.
Qed.

(** X14.  [oprfi_recv_server].  A server without a callback ignores the
    extension whatever it holds.  With a callback, the extension is
    accepted exactly when it is two length bytes followed by as many
    bytes as they announce: anything shorter than two bytes, truncated or
    followed by further bytes is refused with
    [GNUTLS_E_UNEXPECTED_PACKET_LENGTH] and leaves the session as it was.
    An accepted extension stores the announced bytes, all of them and
    nothing else, as the client's input; when the allocation fails the
    result is [GNUTLS_E_MEMORY_ERROR] and the session is left with the
    announced length and a null pointer. *)
Theorem oprfi_recv_server_outcomes (rd : list Z -> Z) (s : oprfi_session)
    (data : list Z) (malloc_ok : bool) :
  let r := oprfi_recv_server rd s data malloc_ok in
  let n := Z.of_nat (length data) - 2 in
  (oprfi_cb s = None -> r = (0, s))
  /\ (oprfi_cb s <> None -> n < 0 \/ rd data <> n ->
      r = (GNUTLS_E_UNEXPECTED_PACKET_LENGTH, s))
  /\ (oprfi_cb s <> None -> 0 <= n -> rd data = n ->
      r = if malloc_ok
          then (0, set_oprfi_client (Block (drop 2 data))
                     (set_oprfi_client_len n s))
          else (GNUTLS_E_MEMORY_ERROR,
                set_oprfi_client NullPtr (set_oprfi_client_len n s))).
Proof. exact (recv_server_cases rd s data malloc_ok).
Qed.

(** Reading a whole block back. *)
Lemma read_block_all (bytes : list Z) (n : Z) :
  n = Z.of_nat (length bytes) -> read_block (Block bytes) n = Some bytes.
Proof.
  intros ->. unfold read_block.
  replace ((0 <=? Z.of_nat (length bytes))
           && (Z.of_nat (length bytes) <=? Z.of_nat (length bytes))) with true
    by (symmetry; rewrite andb_true_iff, !Z.leb_le; lia).
  rewrite Nat2Z.id, firstn_all. reflexivity.
Qed.

(** A size below 2^63 is the same number as an [ssize_t]; a larger
    one is negative. *)
Lemma ssize_t_of_size_t_cases (n : Z) :
  0 <= n < 2 ^ 64 ->
  (n < 2 ^ 63 -> ssize_t_of_size_t n = n)
  /\ (2 ^ 63 <= n -> ssize_t_of_size_t n = n - 2 ^ 64).
Proof.
  intros Hn. unfold ssize_t_of_size_t. cbv zeta.
  rewrite Z.mod_small by lia.
  destruct (Z.ltb_spec n (2 ^ 63)); split; intros; lia || reflexivity.
Qed.

(** Settle the comparisons of a goal by arithmetic. *)
Ltac settle_comparisons :=
  repeat match goal with
         | |- context [?a <? ?b] =>
             first [ replace (a <? b) with true by (symmetry; apply Z.ltb_lt; lia)
                   | replace (a <? b) with false by (symmetry; apply Z.ltb_ge; lia) ]
         | |- context [?a <=? ?b] =>
             first [ replace (a <=? b) with true by (symmetry; apply Z.leb_le; lia)
                   | replace (a <=? b) with false by (symmetry; apply Z.leb_gt; lia) ]
         end.

(** The cases of [oprfi_send_client]. *)
Lemma send_client_cases (wr : Z -> list Z) (s : oprfi_session)
    (bytes : list Z) (room : Z) :
  (forall n, length (wr n) = 2%nat) ->
  oprfi_client s = Block bytes ->
  oprfi_client_len s = Z.of_nat (length bytes) ->
  oprfi_client_len s < 65536 ->
  0 <= room < 2 ^ 64 ->
  let n := oprfi_client_len s in
  let r := oprfi_send_client wr s room in
  (n = 0 -> r = Some (0, []))
  /\ (n <> 0 -> room < 2 -> r = Some (GNUTLS_E_SHORT_MEMORY_BUFFER, []))
  /\ (n <> 0 -> 2 <= room < 2 + n ->
      r = Some (GNUTLS_E_SHORT_MEMORY_BUFFER, wr n))
  /\ (n <> 0 -> 2 + n <= room < 2 ^ 63 ->
      r = Some (2 + n, wr n ++ bytes)
      /\ 2 + n = Z.of_nat (length (wr n ++ bytes)))
  /\ (n <> 0 -> 2 ^ 63 <= room < 2 ^ 63 + 2 -> r = None)
  /\ (n <> 0 -> 2 ^ 63 + 2 <= room ->
      r = Some (GNUTLS_E_SHORT_MEMORY_BUFFER, []))
  /\ (forall ret written,
        r = Some (ret, written) -> Z.of_nat (length written) <= room).
Proof.
  intros Hwr Hc Hlen Hn16 Hroom. cbv zeta.
  destruct (ssize_t_of_size_t_cases room Hroom) as [Hsmall Hlarge].
  assert (Hread : read_block (oprfi_client s) (oprfi_client_len s) = Some bytes)
    by (rewrite Hc; apply read_block_all; exact Hlen).
  assert (Hval :
    oprfi_send_client wr s room =
    if oprfi_client_len s =? 0 then Some (0, [])
    else if room <? 2 then Some (GNUTLS_E_SHORT_MEMORY_BUFFER, [])
    else if room <? 2 + oprfi_client_len s
         then Some (GNUTLS_E_SHORT_MEMORY_BUFFER, wr (oprfi_client_len s))
    else if room <? 2 ^ 63
         then Some (2 + oprfi_client_len s, wr (oprfi_client_len s) ++ bytes)
    else if room <? 2 ^ 63 + 2 then None
    else Some (GNUTLS_E_SHORT_MEMORY_BUFFER, [])).
  { unfold oprfi_send_client, DECR_LENGTH_RET_ssize, DECR_LENGTH_RET,
      ssize_t_fits.
    cbv zeta. rewrite Hread.
    destruct (oprfi_client_len s =? 0) eqn:E0; [reflexivity|].
    apply Z.eqb_neq in E0.
    destruct (Z.ltb_spec room (2 ^ 63)) as [Hlt|Hge].
    - rewrite (Hsmall Hlt).
      destruct (Z.ltb_spec room 2);
        [settle_comparisons; reflexivity|].
      destruct (Z.ltb_spec room (2 + oprfi_client_len s));
        settle_comparisons; reflexivity.
    - rewrite (Hlarge Hge).
      replace (room <? 2) with false by (symmetry; apply Z.ltb_ge; lia).
      replace (room <? 2 + oprfi_client_len s) with false
        by (symmetry; apply Z.ltb_ge; lia).
      destruct (Z.ltb_spec room (2 ^ 63 + 2));
        settle_comparisons; reflexivity. }
  rewrite Hval. clear Hval.
  repeat split; intros;
    repeat match goal with
           | H : _ /\ _ |- _ => destruct H
           end;
    try (settle_comparisons;
         first [ reflexivity
               | replace (oprfi_client_len s =? 0) with false
                   by (symmetry; apply Z.eqb_neq; assumption);
                 settle_comparisons; reflexivity
               | replace (oprfi_client_len s =? 0) with true
                   by (symmetry; apply Z.eqb_eq; assumption);
                 reflexivity ]).
  - rewrite length_app, Hwr. lia.
  - match goal with H : _ = Some _ |- _ => rename H into Hr end.
    destruct (oprfi_client_len s =? 0);
      [injection Hr as <- <-; cbn; lia|].
    destruct (Z.ltb_spec room 2);
      [injection Hr as <- <-; cbn; lia|].
    destruct (Z.ltb_spec room (2 + oprfi_client_len s));
      [injection Hr as <- <-; rewrite Hwr; lia|].
    destruct (Z.ltb_spec room (2 ^ 63));
      [injection Hr as <- <-; rewrite length_app, Hwr; lia|].
    destruct (Z.ltb_spec room (2 ^ 63 + 2)); [discriminate|].
    injection Hr as <- <-; cbn; lia.
Qed.

(** X15.  [oprfi_send_client] on a session whose input block has the length
    the session records (a [uint16_t]), handed a buffer of [room] bytes,
    where [room] is a [size_t] that the function converts to [ssize_t].
    An empty input is not sent at all.  Otherwise, for [room] below 2^63
    the function succeeds exactly when the two length bytes and the
    input fit, and then it writes the length followed by the input and
    returns the number of bytes written; when they do not fit it returns
    [GNUTLS_E_SHORT_MEMORY_BUFFER], and it has then written the length
    bytes already if those fitted.  A [room] of 2^63 or more is negative
    once converted: the function writes nothing and returns
    [GNUTLS_E_SHORT_MEMORY_BUFFER], except for the two sizes 2^63 and
    2^63 + 1, for which the subtraction of 2 overflows.  Whenever the
    function returns it has written no more than [room] bytes. *)
Theorem oprfi_send_client_outcomes (wr : Z -> list Z) (s : oprfi_session)
    (bytes : list Z) (room : Z) :
  (forall n, length (wr n) = 2%nat) ->
  oprfi_client s = Block bytes ->
  oprfi_client_len s = Z.of_nat (length bytes) ->
  oprfi_client_len s < 65536 ->
  0 <= room < 2 ^ 64 ->
  let n := oprfi_client_len s in
  let r := oprfi_send_client wr s room in
  (n = 0 -> r = Some (0, []))
  /\ (n <> 0 -> room < 2 -> r = Some (GNUTLS_E_SHORT_MEMORY_BUFFER, []))
  /\ (n <> 0 -> 2 <= room < 2 + n ->
      r = Some (GNUTLS_E_SHORT_MEMORY_BUFFER, wr n))
  /\ (n <> 0 -> 2 + n <= room < 2 ^ 63 ->
      r = Some (2 + n, wr n ++ bytes)
      /\ 2 + n = Z.of_nat (length (wr n ++ bytes)))
  /\ (n <> 0 -> 2 ^ 63 <= room < 2 ^ 63 + 2 -> r = None)
  /\ (n <> 0 -> 2 ^ 63 + 2 <= room ->
      r = Some (GNUTLS_E_SHORT_MEMORY_BUFFER, []))
  /\ (forall ret written,
        r = Some (ret, written) -> Z.of_nat (length written) <= room).
Proof. exact (send_client_cases wr s bytes room).
Qed.

(** The client that offers "hi": ten bytes of room are enough, and so
    many that the converted size is negative are not. *)
Lemma oprfi_send_client_outcomes_witness :
  oprfi_send_client be16_write oprfi_client_hi 10 = Some (4, [0; 2; 104; 105])
  /\ oprfi_send_client be16_write oprfi_client_hi (2 ^ 64 - 1)
     = Some (GNUTLS_E_SHORT_MEMORY_BUFFER, []).
Proof.
  split.
  - destruct (oprfi_send_client_outcomes be16_write oprfi_client_hi
                [104; 105] 10)
      as (_ & _ & _ & Hok & _);
      [reflexivity | reflexivity | reflexivity | reflexivity
      | vm_compute; split; [discriminate | reflexivity] |].
    destruct Hok as [Hr _];
      [vm_compute; discriminate
      | vm_compute; split; [discriminate | reflexivity] |].
    exact Hr.
  - destruct (oprfi_send_client_outcomes be16_write oprfi_client_hi
                [104; 105] (2 ^ 64 - 1))
      as (_ & _ & _ & _ & _ & Hbig & _);
      [reflexivity | reflexivity | reflexivity | reflexivity
      | vm_compute; split; [discriminate | reflexivity] |].
    apply Hbig; vm_compute; discriminate.
Defined.

Lemma be16_codec : uint16_codec be16_read be16_write.
Proof.
  split; [reflexivity|].
  intros n rest Hn. unfold be16_read, be16_write. cbn.
  pose proof (Z.div_mod n 256). lia.
Qed.

(** From [oprfi_send_client] to [oprfi_recv_server]. *)
Lemma client_to_server (rd : list Z -> Z) (wr : Z -> list Z)
    (c srv : oprfi_session) (bytes : list Z) (room : Z) :
  uint16_codec rd wr ->
  oprfi_client c = Block bytes ->
  oprfi_client_len c = Z.of_nat (length bytes) ->
  0 < Z.of_nat (length bytes) < 65536 ->
  2 + Z.of_nat (length bytes) <= room < 2 ^ 63 ->
  oprfi_cb srv <> None ->
  exists wire,
    oprfi_send_client wr c room = Some (2 + Z.of_nat (length bytes), wire)
    /\ oprfi_recv_server rd srv wire true =
         (0, set_oprfi_client (Block bytes)
               (set_oprfi_client_len (Z.of_nat (length bytes)) srv)).
Proof.
  intros [Hwr Hrd] Hc Hlen Hn Hroom Hcb.
  destruct (send_client_cases wr c bytes room Hwr Hc Hlen)
    as (_ & _ & _ & Hok & _); [lia | lia |].
  destruct Hok as [Hsend _]; [lia | lia |].
  rewrite Hlen in Hsend.
  exists (wr (Z.of_nat (length bytes)) ++ bytes). split; [exact Hsend|].
  destruct (recv_server_cases rd srv
              (wr (Z.of_nat (length bytes)) ++ bytes) true) as (_ & _ & Hacc).
  assert (Hl : Z.of_nat (length (wr (Z.of_nat (length bytes)) ++ bytes)) - 2
               = Z.of_nat (length bytes))
    by (rewrite length_app, Hwr; lia).
  rewrite Hl in Hacc.
  rewrite Hacc; [| exact Hcb | lia | apply Hrd; lia].
  rewrite drop_app_length' by (symmetry; apply Hwr). reflexivity.
Qed.

(** X16.  Round trip from client to server.  What [oprfi_send_client] writes
    for a non-empty input of fewer than 65536 bytes, given room for it
    in a buffer whose size is below 2^63 (so that it is still a size
    once converted to [ssize_t]), [oprfi_recv_server] accepts on a
    server with a callback, and the server then holds the very bytes
    and length the client held. *)
Theorem oprfi_client_server_round_trip (rd : list Z -> Z) (wr : Z -> list Z)
    (c srv : oprfi_session) (bytes : list Z) (room : Z) :
  uint16_codec rd wr ->
  oprfi_client c = Block bytes ->
  oprfi_client_len c = Z.of_nat (length bytes) ->
  0 < Z.of_nat (length bytes) < 65536 ->
  2 + Z.of_nat (length bytes) <= room < 2 ^ 63 ->
  oprfi_cb srv <> None ->
  exists wire,
    oprfi_send_client wr c room = Some (2 + Z.of_nat (length bytes), wire)
    /\ oprfi_recv_server rd srv wire true =
         (0, set_oprfi_client (Block bytes)
               (set_oprfi_client_len (Z.of_nat (length bytes)) srv)).
Proof. exact (client_to_server rd wr c srv bytes room).
Qed.

Lemma oprfi_client_server_round_trip_witness :
  exists wire,
    oprfi_send_client be16_write oprfi_client_hi 10 = Some (4, wire)
    /\ oprfi_recv_server be16_read oprfi_server_fresh wire true =
         (0, set_oprfi_client (Block [104; 105])
               (set_oprfi_client_len 2 oprfi_server_fresh)).
Proof.
  apply (oprfi_client_server_round_trip be16_read be16_write
           oprfi_client_hi oprfi_server_fresh [104; 105] 10).
  - exact be16_codec.
  - reflexivity.
  - reflexivity.
  - vm_compute. split; reflexivity.
  - vm_compute. split; [discriminate | reflexivity].
  - vm_compute. discriminate.
Defined.

(** The cases of [oprfi_send_server]. *)
Lemma send_server_cases (wr : Z -> list Z) (s : oprfi_session)
    (cb : oprfi_callback) (client : list Z) (room : Z) (malloc_ok : bool) :
  (forall n, length (wr n) = 2%nat) ->
  oprfi_cb s = Some cb ->
  oprfi_client s = Block client ->
  oprfi_client_len s = Z.of_nat (length client) ->
  oprfi_client_len s < 65536 ->
  length (cb (oprfi_client_len s) client).2 = length client ->
  0 <= room < 2 ^ 64 ->
  let n := oprfi_client_len s in
  let ret_cb := (cb n client).1 in
  let out := (cb n client).2 in
  let r := oprfi_send_server wr s room malloc_ok in
  let s1 := set_oprfi_server_len n s in
  let s2 := set_oprfi_server (Block out) s1 in
  (malloc_ok = false ->
   r = Some (GNUTLS_E_MEMORY_ERROR, set_oprfi_server NullPtr s1, []))
  /\ (malloc_ok = true -> ret_cb < 0 ->
      r = Some (ret_cb, set_oprfi_server FreedPtr s1, []))
  /\ (malloc_ok = true -> 0 <= ret_cb ->
      (room < 2 -> r = Some (GNUTLS_E_SHORT_MEMORY_BUFFER, s2, []))
      /\ (2 <= room < 2 + n ->
          r = Some (GNUTLS_E_SHORT_MEMORY_BUFFER, s2, wr n))
      /\ (2 + n <= room < 2 ^ 63 -> r = Some (2 + n, s2, wr n ++ out))
      /\ (2 ^ 63 <= room < 2 ^ 63 + 2 -> r = None)
      /\ (2 ^ 63 + 2 <= room ->
          r = Some (GNUTLS_E_SHORT_MEMORY_BUFFER, s2, [])))
  /\ (forall ret s' written,
        r = Some (ret, s', written) ->
        Z.of_nat (length written) <= room
        /\ oprfi_server_len s' = n
        /\ oprfi_client s' = oprfi_client s
        /\ oprfi_client_len s' = n).
Proof.
  intros Hwr Hcb Hc Hlen Hn16 Hout Hroom. cbv zeta.
  destruct (ssize_t_of_size_t_cases room Hroom) as [Hsmall Hlarge].
  destruct (cb (oprfi_client_len s) client) as [ret_cb out] eqn:Ecb.
  cbn [fst snd] in *.
  set (s1 := set_oprfi_server_len (oprfi_client_len s) s).
  set (s2 := set_oprfi_server (Block out) s1).
  assert (Hval :
    oprfi_send_server wr s room malloc_ok =
    if negb malloc_ok
    then Some (GNUTLS_E_MEMORY_ERROR, set_oprfi_server NullPtr s1, [])
    else if ret_cb <? 0 then Some (ret_cb, set_oprfi_server FreedPtr s1, [])
    else if room <? 2 then Some (GNUTLS_E_SHORT_MEMORY_BUFFER, s2, [])
    else if room <? 2 + oprfi_client_len s
         then Some (GNUTLS_E_SHORT_MEMORY_BUFFER, s2, wr (oprfi_client_len s))
    else if room <? 2 ^ 63
         then Some (2 + oprfi_client_len s, s2, wr (oprfi_client_len s) ++ out)
    else if room <? 2 ^ 63 + 2 then None
    else Some (GNUTLS_E_SHORT_MEMORY_BUFFER, s2, [])).
  { unfold oprfi_send_server, DECR_LENGTH_RET_ssize, DECR_LENGTH_RET,
      ssize_t_fits.
    cbv zeta. rewrite Hcb, Hc. cbn [non_null negb].
    destruct malloc_ok; cbn [negb]; [|reflexivity].
    cbn [oprfi_client oprfi_client_len set_oprfi_server_len
         oprfi_server_len set_oprfi_server oprfi_server].
    rewrite Hc, read_block_all by exact Hlen.
    cbn [mbind option_bind]. rewrite Ecb.
    assert (Htake : take (Z.to_nat (oprfi_client_len s)) out = out)
      by (apply take_ge; lia).
    rewrite Htake.
    destruct (ret_cb <? 0); [reflexivity|].
    rewrite read_block_all by lia. cbn [mbind option_bind].
    destruct (Z.ltb_spec room (2 ^ 63)) as [Hlt|Hge].
    - rewrite (Hsmall Hlt).
      destruct (Z.ltb_spec room 2);
        [settle_comparisons; reflexivity|].
      destruct (Z.ltb_spec room (2 + oprfi_client_len s));
        settle_comparisons; reflexivity.
    - rewrite (Hlarge Hge).
      replace (room <? 2) with false by (symmetry; apply Z.ltb_ge; lia).
      replace (room <? 2 + oprfi_client_len s) with false
        by (symmetry; apply Z.ltb_ge; lia).
      destruct (Z.ltb_spec room (2 ^ 63 + 2));
        settle_comparisons; reflexivity. }
  rewrite Hval. clear Hval.
  split; [intros ->; reflexivity|].
  split; [intros -> Hneg; cbn [negb];
          replace (ret_cb <? 0) with true by (symmetry; apply Z.ltb_lt; lia);
          reflexivity|].
  split.
  - intros -> Hpos. cbn [negb].
    replace (ret_cb <? 0) with false by (symmetry; apply Z.ltb_ge; lia).
    repeat split; intros;
      repeat match goal with
             | H : _ /\ _ |- _ => destruct H
             end;
      settle_comparisons; reflexivity.
  - intros ret s' written Hr.
    destruct malloc_ok; cbn [negb] in Hr;
      [|injection Hr as <- <- <-; cbn; repeat split; lia].
    destruct (ret_cb <? 0);
      [injection Hr as <- <- <-; cbn; repeat split; lia|].
    destruct (Z.ltb_spec room 2);
      [injection Hr as <- <- <-; cbn; repeat split; lia|].
    destruct (Z.ltb_spec room (2 + oprfi_client_len s));
      [injection Hr as <- <- <-; rewrite Hwr; cbn; repeat split; lia|].
    destruct (Z.ltb_spec room (2 ^ 63));
      [injection Hr as <- <- <-; rewrite length_app, Hwr, Hout; cbn;
       repeat split; lia|].
    destruct (Z.ltb_spec room (2 ^ 63 + 2)); [discriminate|].
    injection Hr as <- <- <-; cbn; repeat split; lia.
Qed.

(** X17.  [oprfi_send_server] on a server with a callback that holds the
    client's input as a block of the recorded length (a [uint16_t]),
    handed a buffer of [room] bytes, where [room] is a [size_t] that the
    function converts to [ssize_t].  When the allocation fails the
    result is [GNUTLS_E_MEMORY_ERROR].  When the callback fails its
    value is returned, nothing is written, and the session keeps a
    pointer to the output block that has just been freed.  Otherwise
    the answer is as long as the client's input; for [room] below 2^63 it
    is sent, length first, exactly when it fits, and a buffer that is
    too short gives [GNUTLS_E_SHORT_MEMORY_BUFFER], after the length
    bytes have been written if those fitted.  A [room] of 2^63 or more is
    negative once converted: nothing is written and the result is
    [GNUTLS_E_SHORT_MEMORY_BUFFER], except for the two sizes 2^63 and
    2^63 + 1, for which the subtraction of 2 overflows.  Whenever the
    function returns it has written no more than [room] bytes, and the
    session records for the server's input the length of the
    client's. *)
Theorem oprfi_send_server_outcomes (wr : Z -> list Z) (s : oprfi_session)
    (cb : oprfi_callback) (client : list Z) (room : Z) (malloc_ok : bool) :
  (forall n, length (wr n) = 2%nat) ->
  oprfi_cb s = Some cb ->
  oprfi_client s = Block client ->
  oprfi_client_len s = Z.of_nat (length client) ->
  oprfi_client_len s < 65536 ->
  length (cb (oprfi_client_len s) client).2 = length client ->
  0 <= room < 2 ^ 64 ->
  let n := oprfi_client_len s in
  let ret_cb := (cb n client).1 in
  let out := (cb n client).2 in
  let r := oprfi_send_server wr s room malloc_ok in
  let s1 := set_oprfi_server_len n s in
  let s2 := set_oprfi_server (Block out) s1 in
  (malloc_ok = false ->
   r = Some (GNUTLS_E_MEMORY_ERROR, set_oprfi_server NullPtr s1, []))
  /\ (malloc_ok = true -> ret_cb < 0 ->
      r = Some (ret_cb, set_oprfi_server FreedPtr s1, []))
  /\ (malloc_ok = true -> 0 <= ret_cb ->
      (room < 2 -> r = Some (GNUTLS_E_SHORT_MEMORY_BUFFER, s2, []))
      /\ (2 <= room < 2 + n ->
          r = Some (GNUTLS_E_SHORT_MEMORY_BUFFER, s2, wr n))
      /\ (2 + n <= room < 2 ^ 63 -> r = Some (2 + n, s2, wr n ++ out))
      /\ (2 ^ 63 <= room < 2 ^ 63 + 2 -> r = None)
      /\ (2 ^ 63 + 2 <= room ->
          r = Some (GNUTLS_E_SHORT_MEMORY_BUFFER, s2, [])))
  /\ (forall ret s' written,
        r = Some (ret, s', written) ->
        Z.of_nat (length written) <= room
        /\ oprfi_server_len s' = n
        /\ oprfi_client s' = oprfi_client s
        /\ oprfi_client_len s' = n).
Proof. exact (send_server_cases wr s cb client room malloc_ok).
Qed.

(** The server that holds "hi" and answers with every byte incremented:
    ten bytes of room are enough, and so many that the converted size
    is negative are not. *)
Lemma oprfi_send_server_outcomes_witness :
  let s := set_oprfi_client (Block [104; 105])
             (set_oprfi_client_len 2 oprfi_server_fresh) in
  let s2 := set_oprfi_server (Block [105; 106]) (set_oprfi_server_len 2 s) in
  oprfi_send_server be16_write s 10 true = Some (4, s2, [0; 2; 105; 106])
  /\ oprfi_send_server be16_write s (2 ^ 64 - 1) true
     = Some (GNUTLS_E_SHORT_MEMORY_BUFFER, s2, []).
Proof.
  cbv zeta. split.
  - destruct (oprfi_send_server_outcomes be16_write
                (set_oprfi_client (Block [104; 105])
                   (set_oprfi_client_len 2 oprfi_server_fresh))
                cb_increment [104; 105] 10 true)
      as (_ & _ & Hok & _);
      [reflexivity | reflexivity | reflexivity | reflexivity | reflexivity
      | reflexivity | vm_compute; split; [discriminate | reflexivity] |].
    destruct Hok as (_ & _ & Hfit & _);
      [reflexivity | vm_compute; discriminate |].
    apply Hfit. vm_compute. split; [discriminate | reflexivity].
  - destruct (oprfi_send_server_outcomes be16_write
                (set_oprfi_client (Block [104; 105])
                   (set_oprfi_client_len 2 oprfi_server_fresh))
                cb_increment [104; 105] (2 ^ 64 - 1) true)
      as (_ & _ & Hok & _);
      [reflexivity | reflexivity | reflexivity | reflexivity | reflexivity
      | reflexivity | vm_compute; split; [discriminate | reflexivity] |].
    destruct Hok as (_ & _ & _ & _ & Hbig);
      [reflexivity | vm_compute; discriminate |].
    apply Hbig. vm_compute. discriminate.
Defined.

(** The cases of [oprfi_recv_client]. *)
Lemma recv_client_cases (rd : list Z -> Z) (s : oprfi_session)
    (data : list Z) (malloc_ok : bool) :
  let r := oprfi_recv_client rd s data malloc_ok in
  let n := Z.of_nat (length data) - 2 in
  (oprfi_client s = NullPtr -> r = (0, s))
  /\ (oprfi_client s <> NullPtr -> n < 0 \/ rd data <> n ->
      r = (GNUTLS_E_UNEXPECTED_PACKET_LENGTH, s))
  /\ (oprfi_client s <> NullPtr -> 0 <= n -> rd data = n ->
      n <> oprfi_client_len s ->
      r = (GNUTLS_E_RECEIVED_ILLEGAL_PARAMETER, s))
  /\ (oprfi_client s <> NullPtr -> 0 <= n -> rd data = n ->
      n = oprfi_client_len s ->
      r = if malloc_ok
          then (0, set_oprfi_server (Block (drop 2 data))
                     (set_oprfi_server_len n s))
          else (GNUTLS_E_MEMORY_ERROR,
                set_oprfi_server NullPtr (set_oprfi_server_len n s))).
Proof.
  cbv zeta. unfold oprfi_recv_client, DECR_LEN, DECR_LENGTH_RET.
  destruct (oprfi_client s) as [|blk|]; cbn [non_null negb];
    (split; [|split; [|split]]); try congruence; try reflexivity;
    try (intros _ Hbad;
         destruct (Z.of_nat (length data) - 2 <? 0) eqn:E; [reflexivity|];
         apply Z.ltb_ge in E;
         destruct (rd data =? Z.of_nat (length data) - 2) eqn:E2; [|reflexivity];
         apply Z.eqb_eq in E2; lia);
    try (intros _ Hn Hrd Hne;
         replace (Z.of_nat (length data) - 2 <? 0) with false
           by (symmetry; apply Z.ltb_ge; lia);
         rewrite Hrd, Z.eqb_refl; cbn [negb];
         first [ replace (Z.of_nat (length data) - 2 =? oprfi_client_len s)
                   with false by (symmetry; apply Z.eqb_neq; exact Hne);
                 reflexivity
               | rewrite <- Hne, Z.eqb_refl; cbn [negb];
                 rewrite take_ge by (rewrite length_drop; lia);
                 destruct malloc_ok; reflexivity ]).
Qed.

(** X18.  [oprfi_recv_client].  A client that offered no input ignores the
    server's extension.  Otherwise the extension must be two length
    bytes followed by as many bytes as they announce
    ([GNUTLS_E_UNEXPECTED_PACKET_LENGTH] if not), and that number must be
    the length of the client's own input
    ([GNUTLS_E_RECEIVED_ILLEGAL_PARAMETER] if not); a refused extension
    leaves the session as it was, an accepted one stores the announced
    bytes as the server's input. *)
Theorem oprfi_recv_client_outcomes (rd : list Z -> Z) (s : oprfi_session)
    (data : list Z) (malloc_ok : bool) :
  let r := oprfi_recv_client rd s data malloc_ok in
  let n := Z.of_nat (length data) - 2 in
  (oprfi_client s = NullPtr -> r = (0, s))
  /\ (oprfi_client s <> NullPtr -> n < 0 \/ rd data <> n ->
      r = (GNUTLS_E_UNEXPECTED_PACKET_LENGTH, s))
  /\ (oprfi_client s <> NullPtr -> 0 <= n -> rd data = n ->
      n <> oprfi_client_len s ->
      r = (GNUTLS_E_RECEIVED_ILLEGAL_PARAMETER, s))
  /\ (oprfi_client s <> NullPtr -> 0 <= n -> rd data = n ->
      n = oprfi_client_len s ->
      r = if malloc_ok
          then (0, set_oprfi_server (Block (drop 2 data))
                     (set_oprfi_server_len n s))
          else (GNUTLS_E_MEMORY_ERROR,
                set_oprfi_server NullPtr (set_oprfi_server_len n s))).
Proof. exact (recv_client_cases rd s data malloc_ok).
Qed.

(** X19.  The whole exchange.  A client offers a non-empty input of fewer than
    65536 bytes; a server whose callback succeeds and fills an answer of
    the same length receives it and replies; the client receives the
    reply.  With room for both messages in buffers whose sizes are below
    2^63 (so that they are still sizes once converted to [ssize_t]) and
    memory for both copies,
    every step succeeds, and at the end the two sides hold the same
    client input and the same server input: the client's bytes and the
    callback's answer. *)
Theorem oprfi_exchange_agrees (rd : list Z -> Z) (wr : Z -> list Z)
    (c srv : oprfi_session) (cb : oprfi_callback) (bytes : list Z)
    (room_c room_s : Z) :
  uint16_codec rd wr ->
  oprfi_client c = Block bytes ->
  oprfi_client_len c = Z.of_nat (length bytes) ->
  0 < Z.of_nat (length bytes) < 65536 ->
  oprfi_cb srv = Some cb ->
  0 <= (cb (Z.of_nat (length bytes)) bytes).1 ->
  length (cb (Z.of_nat (length bytes)) bytes).2 = length bytes ->
  2 + Z.of_nat (length bytes) <= room_c < 2 ^ 63 ->
  2 + Z.of_nat (length bytes) <= room_s < 2 ^ 63 ->
  let n := Z.of_nat (length bytes) in
  let answer := (cb n bytes).2 in
  exists wire1 srv1 srv2 wire2 c2,
    oprfi_send_client wr c room_c = Some (2 + n, wire1)
    /\ oprfi_recv_server rd srv wire1 true = (0, srv1)
    /\ oprfi_send_server wr srv1 room_s true = Some (2 + n, srv2, wire2)
    /\ oprfi_recv_client rd c wire2 true = (0, c2)
    /\ oprfi_client srv2 = Block bytes /\ oprfi_client c2 = Block bytes
    /\ oprfi_server srv2 = Block answer /\ oprfi_server c2 = Block answer
    /\ oprfi_client_len srv2 = n /\ oprfi_client_len c2 = n
    /\ oprfi_server_len srv2 = n /\ oprfi_server_len c2 = n.
Proof.
  intros Hcodec Hc Hlen Hn Hcb Hret Hout Hrc Hrs. cbv zeta.
  destruct (client_to_server rd wr c srv bytes room_c Hcodec Hc Hlen Hn Hrc)
    as (wire1 & Hsend & Hrecv); [congruence|].
  destruct Hcodec as [Hwr Hrd].
  set (srv1 := set_oprfi_client (Block bytes)
                 (set_oprfi_client_len (Z.of_nat (length bytes)) srv)) in *.
  destruct (send_server_cases wr srv1 cb bytes room_s true Hwr)
    as (_ & _ & Hok & _);
    [exact Hcb | reflexivity | reflexivity | cbn; lia | exact Hout | lia |].
  cbn [srv1 oprfi_client_len set_oprfi_client set_oprfi_client_len
       oprfi_client] in Hok.
  destruct Hok as (_ & _ & Hss & _); [reflexivity | exact Hret |].
  specialize (Hss Hrs).
  destruct (recv_client_cases rd c
              (wr (Z.of_nat (length bytes))
               ++ (cb (Z.of_nat (length bytes)) bytes).2) true)
    as (_ & _ & _ & Hacc).
  assert (Hl : Z.of_nat (length (wr (Z.of_nat (length bytes))
                                 ++ (cb (Z.of_nat (length bytes)) bytes).2)) - 2
               = Z.of_nat (length bytes))
    by (rewrite length_app, Hwr, Hout; lia).
  rewrite Hl in Hacc.
  specialize (Hacc ltac:(rewrite Hc; discriminate) ltac:(lia)
                ltac:(apply Hrd; lia) ltac:(symmetry; exact Hlen)).
  rewrite drop_app_length' in Hacc by (symmetry; apply Hwr).
  eexists wire1, srv1, _, _, _.
  split; [exact Hsend|]. split; [exact Hrecv|]. split; [exact Hss|].
  split; [exact Hacc|].
  cbn [oprfi_client oprfi_server oprfi_client_len oprfi_server_len
       set_oprfi_server set_oprfi_server_len set_oprfi_client
       set_oprfi_client_len srv1].
  repeat split; try assumption.
Qed.

Lemma oprfi_exchange_agrees_witness :
  exists wire1 srv1 srv2 wire2 c2,
    oprfi_send_client be16_write oprfi_client_hi 10 = Some (4, wire1)
    /\ oprfi_recv_server be16_read oprfi_server_fresh wire1 true = (0, srv1)
    /\ oprfi_send_server be16_write srv1 10 true = Some (4, srv2, wire2)
    /\ oprfi_recv_client be16_read oprfi_client_hi wire2 true = (0, c2)
    /\ oprfi_server srv2 = Block [105; 106]
    /\ oprfi_server c2 = Block [105; 106].
Proof.
  destruct (oprfi_exchange_agrees be16_read be16_write oprfi_client_hi
              oprfi_server_fresh cb_increment [104; 105] 10 10)
    as (wire1 & srv1 & srv2 & wire2 & c2 & H1 & H2 & H3 & H4
        & _ & _ & H5 & H6 & _);
    [exact be16_codec | reflexivity | reflexivity
    | vm_compute; split; reflexivity | reflexivity
    | vm_compute; discriminate | reflexivity
    | vm_compute; split; [discriminate | reflexivity]
    | vm_compute; split; [discriminate | reflexivity] |].
  exists wire1, srv1, srv2, wire2, c2.
  repeat split; assumption.
Defined.

(** * File names of literal packets *)

Lemma strrchr_none (s : list Z) (ch : Z) :
  strrchr s ch = None <-> ch ∉ s.
Proof.
  induction s as [|c rest IH]; cbn.
  - split; [intros _; apply not_elem_of_nil | reflexivity].
  - destruct (strrchr rest ch) as [p|].
    + split; [discriminate|]. intros Hn. exfalso.
      assert (Hrest : ch ∉ rest) by (intros Hin; apply Hn; by right).
      apply IH in Hrest. discriminate.
    + destruct (c =? ch) eqn:E.
      * apply Z.eqb_eq in E. subst. split; [discriminate|].
        intros Hn. exfalso. apply Hn. by left.
      * apply Z.eqb_neq in E. split; [|reflexivity]. intros _ Hin.
        apply elem_of_cons in Hin as [->|Hin]; [congruence|].
        by apply (proj1 IH).
Qed.

Lemma strrchr_some (s : list Z) (ch : Z) (p : list Z) :
  strrchr s ch = Some p ->
  exists pre rest, s = pre ++ ch :: rest /\ p = ch :: rest /\ ch ∉ rest.
Proof.
  revert p. induction s as [|c rest IH]; cbn; [discriminate|].
  intros p. destruct (strrchr rest ch) as [q|] eqn:Eq.
  - intros [= <-]. destruct (IH q eq_refl) as (pre & r & -> & -> & Hn).
    exists (c :: pre), r. repeat split. exact Hn.
  - destruct (c =? ch) eqn:E; [|discriminate].
    apply Z.eqb_eq in E. subst. intros [= <-].
    exists [], rest. repeat split. by apply strrchr_none.
Qed.

(** What [dup_trim_filename] returns, case by case. *)
Lemma dup_trim_cases (s r : list Z) :
  dup_trim_filename s true = Some r ->
  (exists pre, s = pre ++ char_slash :: r /\ char_slash ∉ r)
  \/ ((char_slash ∉ s) /\
      exists pre, s = pre ++ char_backslash :: r /\ char_backslash ∉ r)
  \/ ((char_slash ∉ s) /\ (char_backslash ∉ s) /\ r = s).
Proof.
  unfold dup_trim_filename.
  destruct (strrchr s char_slash) as [p|] eqn:E1.
  - intros [= <-]. left.
    destruct (strrchr_some _ _ _ E1) as (pre & rest & -> & -> & Hn).
    exists pre. split; [reflexivity | exact Hn].
  - apply strrchr_none in E1.
    destruct (strrchr s char_backslash) as [p|] eqn:E2.
    + intros [= <-]. right. left. split; [exact E1|].
      destruct (strrchr_some _ _ _ E2) as (pre & rest & -> & -> & Hn).
      exists pre. split; [reflexivity | exact Hn].
    + apply strrchr_none in E2. intros [= <-]. right. right. tauto.
Qed.

(** X20.  [dup_trim_filename] always answers a tail of its argument that holds
    no slash.  When the argument has a slash the answer is what follows
    the last one; when it has none but has a backslash, what follows the
    last backslash; when it has neither, the argument itself.  It fails
    only when [cdk_strdup] does. *)
Theorem dup_trim_filename_no_slash (s : list Z) (strdup_ok : bool) :
  (dup_trim_filename s strdup_ok = None <-> strdup_ok = false)
  /\ (forall r, dup_trim_filename s strdup_ok = Some r ->
        (char_slash ∉ r)
        /\ (exists pre, s = pre ++ r)
        /\ (char_slash ∈ s -> exists pre, s = pre ++ char_slash :: r)
        /\ (char_slash ∉ s -> char_backslash ∈ s ->
            (exists pre, s = pre ++ char_backslash :: r) /\ char_backslash ∉ r)
        /\ (char_slash ∉ s -> char_backslash ∉ s -> r = s)).
Proof.
  split.
  - unfold dup_trim_filename.
    destruct strdup_ok;
      destruct (strrchr s char_slash); try destruct (strrchr s char_backslash);
      split; congruence.
  - intros r Hr. destruct strdup_ok.
    2:{ unfold dup_trim_filename in Hr.
        destruct (strrchr s char_slash); try destruct (strrchr s char_backslash);
          discriminate. }
    destruct (dup_trim_cases s r Hr)
      as [(pre & -> & Hn)|[(Hs & pre & -> & Hn)|(Hs & Hb & ->)]].
    + split; [exact Hn|]. split; [exists (pre ++ [char_slash]); by rewrite <- app_assoc|].
      split; [eauto|]. split; [|].
      * intros Hno. exfalso. apply Hno. set_solver.
      * intros Hno. exfalso. apply Hno. set_solver.
    + split; [set_solver|].
      split; [exists (pre ++ [char_backslash]); by rewrite <- app_assoc|].
      split; [intros Hin; contradiction|]. split; [eauto|].
      intros _ Hno. exfalso. apply Hno. set_solver.
    + split; [exact Hs|]. split; [by exists []|].
      split; [intros Hin; contradiction|]. split; [|reflexivity].
      intros _ Hin. contradiction.
Qed.

(** X21.  One pass does not remove every separator: after a slash has been
    cut off, backslashes that followed it are still there.  A second
    pass removes them, and the result of the second pass has neither
    separator and is left alone by any further pass. *)
Theorem dup_trim_filename_twice (s r r2 : list Z) :
  dup_trim_filename s true = Some r ->
  dup_trim_filename r true = Some r2 ->
  (char_slash ∉ r2) /\ (char_backslash ∉ r2)
  /\ dup_trim_filename r2 true = Some r2
  /\ (char_backslash ∉ r -> r2 = r).
Proof.
  intros H1 H2.
  assert (Hr : char_slash ∉ r).
  { destruct (dup_trim_cases s r H1)
      as [(pre & -> & Hn)|[(Hs & pre & -> & Hn)|(Hs & Hb & ->)]];
      [exact Hn | set_solver | exact Hs]. }
  assert (Hfix : forall x, char_slash ∉ x -> char_backslash ∉ x ->
                           dup_trim_filename x true = Some x).
  { intros x Hx1 Hx2. unfold dup_trim_filename.
    apply strrchr_none in Hx1, Hx2. rewrite Hx1, Hx2. reflexivity. }
  destruct (dup_trim_cases r r2 H2)
    as [(pre & -> & Hn)|[(Hs & pre & -> & Hn)|(Hs & Hb & ->)]].
  - exfalso. apply Hr. set_solver.
  - assert (Hs2 : char_slash ∉ r2) by set_solver.
    split; [exact Hs2|]. split; [exact Hn|]. split; [by apply Hfix|].
    intros Hno. exfalso. apply Hno. set_solver.
  - split; [exact Hs|]. split; [exact Hb|]. split; [by apply Hfix|]. reflexivity.
Qed.

(** The name "a/b\c" keeps its backslash in the first pass and loses it
    in the second; a name that ends in a slash becomes empty. *)
Example dup_trim_filename_examples :
  dup_trim_filename [97; 47; 98; 92; 99] true = Some [98; 92; 99]
  /\ dup_trim_filename [98; 92; 99] true = Some [99]
  /\ dup_trim_filename [100; 105; 114; 47] true = Some []
  /\ dup_trim_filename [97; 47; 98] false = None.
Proof. repeat split. Qed.

Lemma dup_trim_filename_twice_witness :
  (char_slash ∉ [99]) /\ (char_backslash ∉ [99])
  /\ dup_trim_filename [99] true = Some [99]
  /\ (char_backslash ∉ [98; 92; 99] -> [99] = [98; 92; 99]).
Proof.
  apply (dup_trim_filename_twice [97; 47; 98; 92; 99] [98; 92; 99] [99]);
    reflexivity.
Defined.

(** * Verification of X.509 certificate chains *)

Section VerifyFacts.
Context {Cert : Type}.
Variable ops : x509_ops Cert.

Lemma find_issuer_some (cert : Cert) (cas : list Cert) (ca : Cert) :
  find_issuer ops cert cas = Some ca ->
  ca ∈ cas /\ is_issuer ops cert ca = 1.
Proof.
  induction cas as [|c rest IH]; cbn; [discriminate|].
  destruct (is_issuer ops cert c =? 1) eqn:E.
  - intros [= <-]. apply Z.eqb_eq in E. split; [by left | exact E].
  - intros H. destruct (IH H) as [Hin Hi]. split; [by right | exact Hi].
Qed.

Lemma find_issuer_none (cert : Cert) (cas : list Cert) :
  find_issuer ops cert cas = None <->
  forall ca, ca ∈ cas -> is_issuer ops cert ca <> 1.
Proof.
  induction cas as [|c rest IH]; cbn.
  - split; [intros _ ca Hin; by apply elem_of_nil in Hin | reflexivity].
  - destruct (is_issuer ops cert c =? 1) eqn:E.
    + apply Z.eqb_eq in E. split; [discriminate|].
      intros H. exfalso. apply (H c); [by left | exact E].
    + apply Z.eqb_neq in E. rewrite IH. split.
      * intros H ca Hin. apply elem_of_cons in Hin as [->|Hin]; [exact E|].
        by apply H.
      * intros H ca Hin. apply H. by right.
Qed.

(** The cases of [MHD__gnutls_verify_certificate2] in which no trusted
    certificate is named as the issuer. *)
Lemma verify2_not_found (cert : Cert) (cas : list Cert) (flags : Z) :
  (forall ca, ca ∈ cas -> is_issuer ops cert ca <> 1) ->
  MHD__gnutls_verify_certificate2 ops cert cas flags =
    (0, Z.lor 0 (Z.lor (GNUTLS_CERT_SIGNER_NOT_FOUND ops) (GNUTLS_CERT_INVALID ops))).
Proof.
  intros Hno. unfold MHD__gnutls_verify_certificate2.
  destruct (negb (1 <=? Z.of_nat (length cas))); [reflexivity|].
  apply find_issuer_none in Hno. rewrite Hno. reflexivity.
Qed.

(** A positive result of [MHD__gnutls_verify_certificate2] has passed
    every check. *)
Lemma verify2_positive (cert : Cert) (cas : list Cert) (flags : Z) :
  0 < (MHD__gnutls_verify_certificate2 ops cert cas flags).1 ->
  exists issuer,
    find_issuer ops cert cas = Some issuer
    /\ issuer ∈ cas
    /\ is_issuer ops cert issuer = 1
    /\ 0 <= x509_crt_get_version ops issuer
    /\ 0 <= (x509_get_signed_data ops cert).1
    /\ 0 <= (x509_get_signature ops cert).1
    /\ x509_verify_signature ops (x509_get_signed_data ops cert).2
         (x509_get_signature ops cert).2 issuer
       = (MHD__gnutls_verify_certificate2 ops cert cas flags).1
    /\ (flag_set flags GNUTLS_VERIFY_DISABLE_CA_SIGN = true
        \/ (flag_set flags GNUTLS_VERIFY_ALLOW_X509_V1_CA_CRT = true
            /\ x509_crt_get_version ops issuer = 1)
        \/ check_if_ca ops cert issuer flags <> 0).
Proof.
  unfold MHD__gnutls_verify_certificate2.
  destruct (negb (1 <=? Z.of_nat (length cas))); [cbn; lia|].
  destruct (find_issuer ops cert cas) as [issuer|] eqn:Ef; [|cbn; lia].
  destruct (find_issuer_some _ _ _ Ef) as [Hin Hiss].
  destruct (x509_crt_get_version ops issuer <? 0) eqn:Ev; [cbn; lia|].
  apply Z.ltb_ge in Ev.
  destruct (negb (flag_set flags GNUTLS_VERIFY_DISABLE_CA_SIGN)
            && negb (flag_set flags GNUTLS_VERIFY_ALLOW_X509_V1_CA_CRT
                     && (x509_crt_get_version ops issuer =? 1))
            && (check_if_ca ops cert issuer flags =? 0)) eqn:Eca; [cbn; lia|].
  destruct (x509_get_signed_data ops cert) as [r1 tbs] eqn:E1.
  destruct (r1 <? 0) eqn:Er1; [apply Z.ltb_lt in Er1; cbn; lia|].
  destruct (x509_get_signature ops cert) as [r2 sig] eqn:E2.
  destruct (r2 <? 0) eqn:Er2; [apply Z.ltb_lt in Er2; cbn; lia|].
  apply Z.ltb_ge in Er1, Er2. cbn [fst snd]. intros Hpos.
  exists issuer. repeat split; try assumption.
  destruct (flag_set flags GNUTLS_VERIFY_DISABLE_CA_SIGN); [by left|].
  destruct (flag_set flags GNUTLS_VERIFY_ALLOW_X509_V1_CA_CRT) eqn:Fv1;
    cbn [negb andb] in Eca.
  - destruct (x509_crt_get_version ops issuer =? 1) eqn:Ev1; cbn in Eca.
    + apply Z.eqb_eq in Ev1. right; left. split; [reflexivity | exact Ev1].
    + apply Z.eqb_neq in Eca. right; right. exact Eca.
  - apply Z.eqb_neq in Eca. right; right. exact Eca.
Qed.

Lemma verify_chain_loop_values (certs : list Cert) (i : nat) (flags : Z) (st : Z) :
  verify_chain_loop ops certs i flags = Some st ->
  st = 0 \/ st = Z.lor 0 (GNUTLS_CERT_INVALID ops).
Proof.
  revert flags. induction i as [|i IH]; intros flags; cbn.
  - intros [= <-]. by left.
  - destruct (certs !! i), (certs !! S i); try discriminate.
    destruct (_ =? 0); [intros [= <-]; by right | apply IH].
Qed.

(** The verdict of the loop, link by link: the link under position [j]
    is checked with the flags as they are after [i - j] turns; the loop
    answers 0 when every link passes and the invalid bit when one
    fails. *)
Lemma verify_chain_loop_links (certs : list Cert) (i : nat) (flags : Z) :
  (i < length certs)%nat ->
  ((forall j cert issuer, (j < i)%nat ->
      certs !! j = Some cert -> certs !! S j = Some issuer ->
      (MHD__gnutls_verify_certificate2 ops cert [issuer]
         (link_flags flags (i - j))).1 <> 0) ->
   verify_chain_loop ops certs i flags = Some 0)
  /\ ((exists j cert issuer, (j < i)%nat /\
        certs !! j = Some cert /\ certs !! S j = Some issuer /\
        (MHD__gnutls_verify_certificate2 ops cert [issuer]
           (link_flags flags (i - j))).1 = 0) ->
      verify_chain_loop ops certs i flags
        = Some (Z.lor 0 (GNUTLS_CERT_INVALID ops))).
Proof.
  revert flags. induction i as [|i IH]; intros flags Hi.
  - split; [reflexivity|]. intros (j & _ & _ & Hj & _). lia.
  - cbn [verify_chain_loop]. fold (toggle_v1 flags).
    destruct (lookup_lt_is_Some_2 certs i ltac:(lia)) as [cert Hc].
    destruct (lookup_lt_is_Some_2 certs (S i) Hi) as [issuer Hs].
    rewrite Hc, Hs.
    assert (Hone : link_flags flags (S i - i) = toggle_v1 flags)
      by (replace (S i - i)%nat with 1%nat by lia; reflexivity).
    assert (Hstep : forall j, (j < i)%nat ->
              link_flags flags (S i - j) = link_flags (toggle_v1 flags) (i - j)).
    { intros j Hj. replace (S i - j)%nat with (S (i - j)) by lia.
      unfold link_flags. apply Nat.iter_succ_r. }
    destruct ((MHD__gnutls_verify_certificate2 ops cert [issuer]
                 (toggle_v1 flags)).1 =? 0) eqn:E.
    + apply Z.eqb_eq in E. split; [|reflexivity].
      intros H. exfalso. apply (H i cert issuer); [lia|exact Hc|exact Hs|].
      rewrite Hone. exact E.
    + apply Z.eqb_neq in E.
      destruct (IH (toggle_v1 flags) ltac:(lia)) as [Hpass Hfail]. split.
      * intros H. apply Hpass. intros j cert' issuer' Hj Hcj Hsj.
        rewrite <- Hstep by exact Hj.
        apply (H j cert' issuer'); [lia | exact Hcj | exact Hsj].
      * intros (j & cert' & issuer' & Hj & Hcj & Hsj & H0).
        destruct (decide (j = i)) as [->|Hne].
        -- rewrite Hc in Hcj. rewrite Hs in Hsj.
           injection Hcj as <-. injection Hsj as <-.
           rewrite Hone in H0. contradiction.
        -- apply Hfail. exists j, cert', issuer'.
           rewrite <- Hstep by lia. repeat split; [lia|assumption..].
Qed.
End VerifyFacts.

(** X22.  A certificate that no trusted certificate names as its issuer, in
    particular any certificate when the trusted list is empty, is never
    verified: [MHD__gnutls_verify_certificate2] returns 0 with the
    signer-not-found and invalid bits, [MHD_gnutls_x509_crt_verify]
    reports the same bits, and a chain that ends in such a certificate
    gets these bits as its status. *)
Theorem verify2_unknown_issuer (Cert : Type) (ops : x509_ops Cert)
    (cert : Cert) (below : list Cert) (cas : list Cert) (flags : Z) :
  (forall ca, ca ∈ cas -> is_issuer ops cert ca <> 1) ->
  let bits := Z.lor 0 (Z.lor (GNUTLS_CERT_SIGNER_NOT_FOUND ops)
                             (GNUTLS_CERT_INVALID ops)) in
  MHD__gnutls_verify_certificate2 ops cert cas flags = (0, bits)
  /\ MHD_gnutls_x509_crt_verify ops cert cas flags = (0, bits)
  /\ MHD__gnutls_x509_verify_certificate ops (below ++ [cert]) cas flags
     = Some (Z.lor (Z.lor 0 bits) (GNUTLS_CERT_INVALID ops)).
Proof.
  intros Hno bits.
  pose proof (verify2_not_found ops cert cas flags Hno) as H2.
  split; [exact H2|]. split.
  - unfold MHD_gnutls_x509_crt_verify. rewrite H2. reflexivity.
  - unfold MHD__gnutls_x509_verify_certificate.
    rewrite last_snoc, H2. reflexivity.
Qed.

Lemma verify2_unknown_issuer_witness :
  MHD__gnutls_verify_certificate2 toy_ops toy_leaf [toy_root] 0 = (0, 66)
  /\ MHD__gnutls_x509_verify_certificate toy_ops ([] ++ [toy_leaf]) [toy_root] 0
     = Some 66.
Proof.
  destruct (verify2_unknown_issuer toy_cert toy_ops toy_leaf [] [toy_root] 0)
    as (H1 & _ & H3).
  - intros ca Hin. apply list_elem_of_singleton in Hin as ->.
    vm_compute. discriminate.
  - split; [exact H1 | exact H3].
Defined.

(** X23.  A positive result of [MHD__gnutls_verify_certificate2] is sound with
    respect to the functions it rests on: it is the value of the
    signature check against the first trusted certificate whose name is
    the certificate's issuer name, whose version could be read, and that
    passed the CA check unless the flags waive it (CA signing disabled,
    or version 1 certificates allowed and the issuer of version 1). *)
Theorem verify2_sound (Cert : Type) (ops : x509_ops Cert)
    (cert : Cert) (cas : list Cert) (flags : Z) :
  0 < (MHD__gnutls_verify_certificate2 ops cert cas flags).1 ->
  exists issuer,
    find_issuer ops cert cas = Some issuer
    /\ issuer ∈ cas
    /\ is_issuer ops cert issuer = 1
    /\ 0 <= x509_crt_get_version ops issuer
    /\ 0 <= (x509_get_signed_data ops cert).1
    /\ 0 <= (x509_get_signature ops cert).1
    /\ x509_verify_signature ops (x509_get_signed_data ops cert).2
         (x509_get_signature ops cert).2 issuer
       = (MHD__gnutls_verify_certificate2 ops cert cas flags).1
    /\ (flag_set flags GNUTLS_VERIFY_DISABLE_CA_SIGN = true
        \/ (flag_set flags GNUTLS_VERIFY_ALLOW_X509_V1_CA_CRT = true
            /\ x509_crt_get_version ops issuer = 1)
        \/ check_if_ca ops cert issuer flags <> 0).
Proof. exact (verify2_positive ops cert cas flags).
Qed.

Lemma verify2_sound_witness :
  exists issuer,
    find_issuer toy_ops toy_md5 [toy_root] = Some issuer
    /\ is_issuer toy_ops toy_md5 issuer = 1.
Proof.
  destruct (verify2_sound toy_cert toy_ops toy_md5 [toy_root] 0)
    as (issuer & Hf & _ & Hi & _); [vm_compute; reflexivity|].
  exists issuer. split; [exact Hf | exact Hi].
Defined.

(** X24.  A chain of one certificate.  Whenever
    [MHD__gnutls_verify_certificate2] returns anything but 0 for it, a
    negative error code included, [MHD_gnutls_x509_crt_list_verify]
    returns 0 and reports status 0, whatever the bits that the check of
    the certificate has set; only a result of 0 gives a status, the bits
    of the check together with the invalid bit.  A null or empty list
    gives [GNUTLS_E_NO_CERTIFICATE_FOUND] and leaves [*verify] alone. *)
Theorem list_verify_single (Cert : Type) (ops : x509_ops Cert)
    (cert : Cert) (cas : list Cert) (flags verify : Z) :
  let r := MHD__gnutls_verify_certificate2 ops cert cas flags in
  MHD_gnutls_x509_crt_list_verify ops (Some [cert]) cas flags verify
    = Some (0, if r.1 =? 0
               then Z.lor (Z.lor 0 r.2) (GNUTLS_CERT_INVALID ops) else 0)
  /\ MHD_gnutls_x509_crt_list_verify ops None cas flags verify
     = Some (GNUTLS_E_NO_CERTIFICATE_FOUND ops, verify)
  /\ MHD_gnutls_x509_crt_list_verify ops (Some []) cas flags verify
     = Some (GNUTLS_E_NO_CERTIFICATE_FOUND ops, verify).
Proof.
  cbv zeta. split; [|split; reflexivity].
  unfold MHD_gnutls_x509_crt_list_verify, MHD__gnutls_x509_verify_certificate.
  cbn [last length].
  destruct (MHD__gnutls_verify_certificate2 ops cert cas flags) as [ret out].
  cbn [fst snd]. destruct (ret =? 0); [reflexivity|].
  destruct ((0 <? MHD_gnutls_x509_crt_check_issuer ops cert cert)
            && (0 <? Z.of_nat 1)); reflexivity.
Qed.

(** X25.  The verdict on a chain.  The list is never read outside its bounds
    when it is not empty.  When the check of its last certificate
    against the trusted list returns 0, the status is the bits of that
    check with the invalid bit.  Otherwise the last certificate is set
    aside if it names itself as issuer, and each remaining certificate
    is checked against the one after it as its only trusted certificate:
    the status is 0 when none of these checks returns 0, and the invalid
    bit alone when one does.  The check under position [j] sees the
    flags as [link_flags] gives them for its distance from the top. *)
Theorem verify_chain_verdict (Cert : Type) (ops : x509_ops Cert)
    (certs : list Cert) (top : Cert) (cas : list Cert) (flags : Z) :
  last certs = Some top ->
  let r := MHD__gnutls_verify_certificate2 ops top cas flags in
  let n := ((if (0 <? is_issuer ops top top)%Z then length certs - 1
             else length certs) - 1)%nat in
  (r.1 = 0 ->
     MHD__gnutls_x509_verify_certificate ops certs cas flags
       = Some (Z.lor (Z.lor 0 r.2) (GNUTLS_CERT_INVALID ops)))
  /\ (r.1 <> 0 ->
      (forall j cert issuer, (j < n)%nat ->
          certs !! j = Some cert -> certs !! S j = Some issuer ->
          (MHD__gnutls_verify_certificate2 ops cert [issuer]
             (link_flags flags (n - j))).1 <> 0) ->
      MHD__gnutls_x509_verify_certificate ops certs cas flags = Some 0)
  /\ (r.1 <> 0 ->
      (exists j cert issuer, (j < n)%nat /\
          certs !! j = Some cert /\ certs !! S j = Some issuer /\
          (MHD__gnutls_verify_certificate2 ops cert [issuer]
             (link_flags flags (n - j))).1 = 0) ->
      MHD__gnutls_x509_verify_certificate ops certs cas flags
        = Some (Z.lor 0 (GNUTLS_CERT_INVALID ops))).
Proof.
  intros Hlast. cbv zeta.
  assert (Hlen : (0 < length certs)%nat)
    by (destruct certs; [discriminate | cbn; lia]).
  unfold MHD__gnutls_x509_verify_certificate, MHD_gnutls_x509_crt_check_issuer.
  rewrite Hlast.
  destruct (MHD__gnutls_verify_certificate2 ops top cas flags) as [ret out].
  cbn [fst snd].
  replace (0 <? Z.of_nat (length certs)) with true
    by (symmetry; apply Z.ltb_lt; lia).
  rewrite andb_true_r.
  set (n := ((if (0 <? is_issuer ops top top)%Z then length certs - 1
              else length certs) - 1)%nat).
  assert (Hn : (n < length certs)%nat)
    by (subst n; destruct (0 <? is_issuer ops top top); lia).
  destruct (verify_chain_loop_links ops certs n flags Hn) as [Hpass Hfail].
  split; [|split].
  - intros ->. reflexivity.
  - intros Hr Hall. apply Z.eqb_neq in Hr. rewrite Hr. by apply Hpass.
  - intros Hr Hex. apply Z.eqb_neq in Hr. rewrite Hr. by apply Hfail.
Qed.

Lemma verify_chain_verdict_witness :
  MHD__gnutls_x509_verify_certificate toy_ops
    [toy_leaf; toy_v1_intermediate; toy_root] [toy_root]
    GNUTLS_VERIFY_ALLOW_X509_V1_CA_CRT
  = Some 2.
Proof.
  destruct (verify_chain_verdict toy_cert toy_ops
              [toy_leaf; toy_v1_intermediate; toy_root] toy_root [toy_root]
              GNUTLS_VERIFY_ALLOW_X509_V1_CA_CRT eq_refl) as (_ & _ & Hfail).
  apply Hfail; [vm_compute; discriminate|].
  exists 0%nat, toy_leaf, toy_v1_intermediate.
  repeat split; vm_compute; reflexivity.
Defined.

(** A bit of the flags, as [Z.testbit] sees it. *)
Lemma land_pow2 (f n : Z) :
  0 <= n -> Z.land f (2 ^ n) = if Z.testbit f n then 2 ^ n else 0.
Proof.
  intros Hn. apply Z.bits_inj'. intros m Hm.
  rewrite Z.land_spec, Z.pow2_bits_eqb by exact Hn.
  destruct (Z.testbit f n) eqn:E.
  - rewrite Z.pow2_bits_eqb by exact Hn.
    destruct (n =? m) eqn:Enm; [apply Z.eqb_eq in Enm; subst; rewrite E|];
      [reflexivity | apply andb_false_r].
  - rewrite Z.bits_0.
    destruct (n =? m) eqn:Enm; [apply Z.eqb_eq in Enm; subst; rewrite E|];
      [reflexivity | apply andb_false_r].
Qed.

Lemma flag_set_testbit (f n : Z) :
  0 <= n -> flag_set f (2 ^ n) = Z.testbit f n.
Proof.
  intros Hn. unfold flag_set. rewrite land_pow2 by exact Hn.
  destruct (Z.testbit f n); [|reflexivity].
  assert (0 < 2 ^ n) by (apply Z.pow_pos_nonneg; lia).
  apply negb_true_iff, Z.eqb_neq. lia.
Qed.

Lemma flag_set_lxor (f n m : Z) :
  0 <= n -> 0 <= m ->
  flag_set (Z.lxor f (2 ^ m)) (2 ^ n)
  = if n =? m then negb (flag_set f (2 ^ n)) else flag_set f (2 ^ n).
Proof.
  intros Hn Hm. rewrite !flag_set_testbit by exact Hn.
  rewrite Z.lxor_spec, Z.pow2_bits_eqb by exact Hm.
  rewrite (Z.eqb_sym m n).
  destruct (n =? m); [apply xorb_true_r | apply xorb_false_r].
Qed.

(** X26.  The flags that the links of a chain are checked with.  When the
    caller allows any version 1 CA the flags never change.  Otherwise
    each turn of the loop inverts the flag that allows version 1 CAs of
    the trusted list and leaves the other flags alone, so that the links
    at odd distance from the top see that flag inverted and those at
    even distance see the flags of the caller. *)
Theorem link_flags_alternate (flags : Z) (k : nat) :
  link_flags flags k =
    (if flag_set flags GNUTLS_VERIFY_ALLOW_ANY_X509_V1_CA_CRT then flags
     else if Nat.odd k then Z.lxor flags GNUTLS_VERIFY_ALLOW_X509_V1_CA_CRT
     else flags)
  /\ flag_set (Z.lxor flags GNUTLS_VERIFY_ALLOW_X509_V1_CA_CRT)
       GNUTLS_VERIFY_ALLOW_X509_V1_CA_CRT
     = negb (flag_set flags GNUTLS_VERIFY_ALLOW_X509_V1_CA_CRT)
  /\ (forall g, In g [GNUTLS_VERIFY_DISABLE_CA_SIGN;
                      GNUTLS_VERIFY_DO_NOT_ALLOW_SAME;
                      GNUTLS_VERIFY_ALLOW_ANY_X509_V1_CA_CRT;
                      GNUTLS_VERIFY_ALLOW_SIGN_RSA_MD2;
                      GNUTLS_VERIFY_ALLOW_SIGN_RSA_MD5] ->
        flag_set (Z.lxor flags GNUTLS_VERIFY_ALLOW_X509_V1_CA_CRT) g
        = flag_set flags g).
Proof.
  assert (Hother : forall g, In g [GNUTLS_VERIFY_DISABLE_CA_SIGN;
                      GNUTLS_VERIFY_DO_NOT_ALLOW_SAME;
                      GNUTLS_VERIFY_ALLOW_ANY_X509_V1_CA_CRT;
                      GNUTLS_VERIFY_ALLOW_SIGN_RSA_MD2;
                      GNUTLS_VERIFY_ALLOW_SIGN_RSA_MD5] ->
        flag_set (Z.lxor flags GNUTLS_VERIFY_ALLOW_X509_V1_CA_CRT) g
        = flag_set flags g).
  { intros g Hg. cbn in Hg.
    destruct Hg as [<-|[<-|[<-|[<-|[<-|[]]]]]].
    - apply (flag_set_lxor flags 0 1); lia.
    - apply (flag_set_lxor flags 2 1); lia.
    - apply (flag_set_lxor flags 3 1); lia.
    - apply (flag_set_lxor flags 4 1); lia.
    - apply (flag_set_lxor flags 5 1); lia. }
  split; [|split; [apply (flag_set_lxor flags 1 1); lia | exact Hother]].
  unfold link_flags.
  destruct (flag_set flags GNUTLS_VERIFY_ALLOW_ANY_X509_V1_CA_CRT) eqn:Eany.
  - induction k as [|k IH]; [reflexivity|].
    rewrite Nat.iter_succ, IH. unfold toggle_v1. rewrite Eany. reflexivity.
  - assert (Hany' : flag_set (Z.lxor flags GNUTLS_VERIFY_ALLOW_X509_V1_CA_CRT)
                      GNUTLS_VERIFY_ALLOW_ANY_X509_V1_CA_CRT = false).
    { rewrite Hother; [exact Eany|]. cbn. tauto. }
    induction k as [|k IH]; [reflexivity|].
    rewrite Nat.iter_succ, IH. rewrite Nat.odd_succ, <- Nat.negb_odd.
    destruct (Nat.odd k); cbn [negb]; unfold toggle_v1.
    + rewrite Hany'. cbn [negb]. rewrite Z.lxor_assoc, Z.lxor_nilpotent.
      apply Z.lxor_0_r.
    + rewrite Eany. reflexivity.
Qed.

(** With no flag given, a chain whose intermediate certificate has
    version 1 and is not a CA is accepted: the first link is checked
    with version 1 CAs allowed.  With the flag that allows version 1 CAs
    only in the trusted list, the same chain is refused. *)
Example chain_v1_intermediate :
  MHD__gnutls_x509_verify_certificate toy_ops
    [toy_leaf; toy_v1_intermediate; toy_root] [toy_root] 0 = Some 0
  /\ MHD__gnutls_x509_verify_certificate toy_ops
       [toy_leaf; toy_v1_intermediate; toy_root] [toy_root]
       GNUTLS_VERIFY_ALLOW_X509_V1_CA_CRT = Some 2.
Proof. split; vm_compute; reflexivity. Qed.

(** The output of a check with a positive result. *)
Lemma verify2_positive_output (Cert : Type) (ops : x509_ops Cert)
    (cert : Cert) (cas : list Cert) (flags : Z) :
  0 < (MHD__gnutls_verify_certificate2 ops cert cas flags).1 ->
  (MHD__gnutls_verify_certificate2 ops cert cas flags).2 =
    if is_issuer ops cert cert =? 0 then
      if ((x509_crt_get_signature_algorithm ops cert =? GNUTLS_SIGN_RSA_MD2 ops)
          && negb (flag_set flags GNUTLS_VERIFY_ALLOW_SIGN_RSA_MD2))
         || ((x509_crt_get_signature_algorithm ops cert =? GNUTLS_SIGN_RSA_MD5 ops)
             && negb (flag_set flags GNUTLS_VERIFY_ALLOW_SIGN_RSA_MD5))
      then Z.lor 0 (Z.lor (GNUTLS_CERT_INSECURE_ALGORITHM ops)
                          (GNUTLS_CERT_INVALID ops))
      else 0
    else 0.
Proof.
  unfold MHD__gnutls_verify_certificate2.
  destruct (negb (1 <=? Z.of_nat (length cas))); [cbn; lia|].
  destruct (find_issuer ops cert cas) as [issuer|]; [|cbn; lia].
  destruct (x509_crt_get_version ops issuer <? 0) eqn:Ev;
    [apply Z.ltb_lt in Ev; cbn; lia|].
  destruct (negb (flag_set flags GNUTLS_VERIFY_DISABLE_CA_SIGN)
            && negb (flag_set flags GNUTLS_VERIFY_ALLOW_X509_V1_CA_CRT
                     && (x509_crt_get_version ops issuer =? 1))
            && (check_if_ca ops cert issuer flags =? 0)); [cbn; lia|].
  destruct (x509_get_signed_data ops cert) as [r1 tbs].
  destruct (r1 <? 0) eqn:Er1; [apply Z.ltb_lt in Er1; cbn; lia|].
  destruct (x509_get_signature ops cert) as [r2 sig].
  destruct (r2 <? 0) eqn:Er2; [apply Z.ltb_lt in Er2; cbn; lia|].
  cbn [fst snd]. intros Hpos.
  replace (x509_verify_signature ops tbs sig issuer <? 0) with false
    by (symmetry; apply Z.ltb_ge; lia).
  replace (x509_verify_signature ops tbs sig issuer =? 0) with false
    by (symmetry; apply Z.eqb_neq; lia).
  reflexivity.
Qed.

(** X27.  A certificate that is not its own issuer, signed with MD5 or MD2
    while the flags do not allow that algorithm, and whose signature
    verifies: [MHD__gnutls_verify_certificate2] sets the
    insecure-algorithm and invalid bits and still returns the positive
    value of the signature check.  [MHD_gnutls_x509_crt_verify] reports
    the bits; [MHD_gnutls_x509_crt_list_verify] on the chain made of
    this certificate alone reports status 0. *)
Theorem verify2_insecure_algorithm (Cert : Type) (ops : x509_ops Cert)
    (cert : Cert) (cas : list Cert) (flags verify : Z) :
  0 < (MHD__gnutls_verify_certificate2 ops cert cas flags).1 ->
  is_issuer ops cert cert = 0 ->
  (x509_crt_get_signature_algorithm ops cert = GNUTLS_SIGN_RSA_MD5 ops
   /\ flag_set flags GNUTLS_VERIFY_ALLOW_SIGN_RSA_MD5 = false)
  \/ (x509_crt_get_signature_algorithm ops cert = GNUTLS_SIGN_RSA_MD2 ops
      /\ flag_set flags GNUTLS_VERIFY_ALLOW_SIGN_RSA_MD2 = false) ->
  let bits := Z.lor 0 (Z.lor (GNUTLS_CERT_INSECURE_ALGORITHM ops)
                             (GNUTLS_CERT_INVALID ops)) in
  (MHD__gnutls_verify_certificate2 ops cert cas flags).2 = bits
  /\ MHD_gnutls_x509_crt_verify ops cert cas flags = (0, bits)
  /\ MHD_gnutls_x509_crt_list_verify ops (Some [cert]) cas flags verify
     = Some (0, 0).
Proof.
  intros Hpos Hself Halg bits.
  assert (Hout : (MHD__gnutls_verify_certificate2 ops cert cas flags).2 = bits).
  { rewrite (verify2_positive_output Cert ops cert cas flags Hpos).
    rewrite Hself. cbn [Z.eqb].
    destruct Halg as [[-> ->]|[-> ->]]; rewrite Z.eqb_refl; cbn [negb andb orb].
    - rewrite orb_true_r. reflexivity.
    - reflexivity. }
  split; [exact Hout|]. split.
  - unfold MHD_gnutls_x509_crt_verify.
    destruct (MHD__gnutls_verify_certificate2 ops cert cas flags) as [ret out].
    cbn [fst snd] in *. subst out.
    replace (ret <? 0) with false by (symmetry; apply Z.ltb_ge; lia).
    reflexivity.
  - unfold MHD_gnutls_x509_crt_list_verify, MHD__gnutls_x509_verify_certificate,
      MHD_gnutls_x509_crt_check_issuer.
    cbn [last length].
    destruct (MHD__gnutls_verify_certificate2 ops cert cas flags) as [ret out].
    cbn [fst snd] in *.
    replace (ret =? 0) with false by (symmetry; apply Z.eqb_neq; lia).
    rewrite Hself. reflexivity.
Qed.

Lemma verify2_insecure_algorithm_witness :
  (MHD__gnutls_verify_certificate2 toy_ops toy_md5 [toy_root] 0) = (1, 258)
  /\ MHD_gnutls_x509_crt_list_verify toy_ops (Some [toy_md5]) [toy_root] 0 7
     = Some (0, 0).
Proof.
  destruct (verify2_insecure_algorithm toy_cert toy_ops toy_md5 [toy_root] 0 7)
    as (H1 & _ & H3);
    [vm_compute; reflexivity | reflexivity
    | left; split; reflexivity |].
  split; [|exact H3].
  destruct (MHD__gnutls_verify_certificate2 toy_ops toy_md5 [toy_root] 0)
    as [ret out] eqn:E.
  cbn [snd] in H1. rewrite H1.
  assert (Hr : ret = 1) by (vm_compute in E; congruence).
  rewrite Hr. reflexivity.
Defined.
